(** * Catch Zone: the falling-fruit game engine (js/gameEngine.js)

    A shallow embedding of the [GameEngine] class and of the part of the
    browser it talks to (the interval table behind [setInterval] /
    [clearInterval] and the [Math.random] source), followed by the
    properties of the engine.

    Numbers.  The score, the level, the frame counter and the clock are
    integer valued in every run of the program: they are embedded as [Z],
    with [Z.div] for [Math.floor (_ / 300)] (a floor division, the divisor
    being positive) and [Z.rem] for the [%] operator.  Positions and speeds
    are embedded as exact rationals [Q]; the decimal constants of the source
    (0.85, 0.5, 0.05, 0.16, ...) are the corresponding fractions.  Rounding
    of IEEE doubles is outside this model: the integers are those of the
    code as long as they stay below 2^53 in absolute value, and a sum or
    product of positions is the code's up to the rounding of a double.
    Statements about positions are stated of the stored values, with the
    comparisons the code makes; bounds are stated so that rounding to the
    nearest double keeps them.

    Callbacks.  The two callback slots hold either [null] or a function
    supplied by the page.  The embedding keeps whether a slot is filled and
    records every call made through it as an [Output].  The functions the
    page registers write to the document only; they do not call back into
    the engine. *)

From Stdlib Require Import ZArith QArith Qround List Bool String Lia Lqa.
Import ListNotations.

Open Scope Z_scope.

(** ** Data *)

(** The [type] field of a falling object: ['apple'] or ['bomb']. *)
Inductive ItemType := apple | bomb.

(** The objects pushed by [spawnItem]: [{ x, y, lane, type, speed, active }]. *)
Record Item := mkItem {
  x : Q;
  y : Q;
  lane : Z;
  type : ItemType;
  speed : Q;
  active : bool
}.

(** The fields of a [GameEngine] instance.  [timerInterval] is not set by the
    constructor (it is [undefined] until the first [start]); interval handles
    are positive integers, so a stored handle is always truthy. *)
Record GameEngine := mkEngine {
  score : Z;
  level : Z;
  timeLimit : Z;
  timeLeft : Z;
  isGameActive : bool;
  basketPos : Z;
  items : list Item;
  spawnRate : Z;
  frameCount : Z;
  onScoreChange : bool;
  onGameEnd : bool;
  timerInterval : option positive
}.

(** [this.lanes]: assigned once in the constructor and never written again. *)
Definition lanes : list Q := [16 # 100; 5 # 10; 84 # 100]%Q.


(** What the engine sends out: calls through the two callback slots and the
    canvas calls of [draw]. *)
Inductive Glyph := basket_glyph | apple_glyph | bomb_glyph.

Inductive Output :=
| ScoreChange (newScore newLevel : Z)
| GameEnd (finalScore finalLevel : Z)
| StrokeLine (x0 y0 x1 y1 : Q)
| FillText (g : Glyph) (tx ty : Q).

(** The argument of [start]: an object whose [timeLimit] may be absent. *)
Record Config := mkConfig { config_timeLimit : option Z }.

(** The engine together with the browser state it uses: the handles of the
    intervals that are still scheduled, the next handle [setInterval] will
    return, and how many times [Math.random] has been called. *)
Record World := mkWorld {
  engine : GameEngine;
  intervals : list positive;
  nextHandle : positive;
  randomCalls : nat
}.

(** ** Field updates *)

Definition set_active (b : bool) (it : Item) : Item :=
  mkItem (x it) (y it) (lane it) (type it) (speed it) b.

Definition set_y (v : Q) (it : Item) : Item :=
  mkItem (x it) v (lane it) (type it) (speed it) (active it).

Definition set_score (v : Z) (e : GameEngine) : GameEngine :=
  mkEngine v (level e) (timeLimit e) (timeLeft e) (isGameActive e)
    (basketPos e) (items e) (spawnRate e) (frameCount e)
    (onScoreChange e) (onGameEnd e) (timerInterval e).

Definition set_level (v : Z) (e : GameEngine) : GameEngine :=
  mkEngine (score e) v (timeLimit e) (timeLeft e) (isGameActive e)
    (basketPos e) (items e) (spawnRate e) (frameCount e)
    (onScoreChange e) (onGameEnd e) (timerInterval e).

Definition set_timeLeft (v : Z) (e : GameEngine) : GameEngine :=
  mkEngine (score e) (level e) (timeLimit e) v (isGameActive e)
    (basketPos e) (items e) (spawnRate e) (frameCount e)
    (onScoreChange e) (onGameEnd e) (timerInterval e).

Definition set_isGameActive (v : bool) (e : GameEngine) : GameEngine :=
  mkEngine (score e) (level e) (timeLimit e) (timeLeft e) v
    (basketPos e) (items e) (spawnRate e) (frameCount e)
    (onScoreChange e) (onGameEnd e) (timerInterval e).

Definition set_basketPos (v : Z) (e : GameEngine) : GameEngine :=
  mkEngine (score e) (level e) (timeLimit e) (timeLeft e) (isGameActive e)
    v (items e) (spawnRate e) (frameCount e)
    (onScoreChange e) (onGameEnd e) (timerInterval e).

Definition set_items (v : list Item) (e : GameEngine) : GameEngine :=
  mkEngine (score e) (level e) (timeLimit e) (timeLeft e) (isGameActive e)
    (basketPos e) v (spawnRate e) (frameCount e)
    (onScoreChange e) (onGameEnd e) (timerInterval e).

Definition set_frameCount (v : Z) (e : GameEngine) : GameEngine :=
  mkEngine (score e) (level e) (timeLimit e) (timeLeft e) (isGameActive e)
    (basketPos e) (items e) (spawnRate e) v
    (onScoreChange e) (onGameEnd e) (timerInterval e).

Definition set_engine (e : GameEngine) (w : World) : World :=
  mkWorld e (intervals w) (nextHandle w) (randomCalls w).

(** ** The browser side *)

(** [clearInterval(h)]: the handle is no longer scheduled.  Clearing
    [undefined] or a handle that is not scheduled does nothing. *)
Definition clearInterval (h : option positive) (live : list positive)
  : list positive :=
  match h with
  | Some k => filter (fun j => negb (Pos.eqb j k)) live
  | None => live
  end.

(** JavaScript comparisons on numbers. *)
Definition js_ge (a b : Q) : bool := Qle_bool b a.
Definition js_le (a b : Q) : bool := Qle_bool a b.
Definition js_gt (a b : Q) : bool := negb (Qle_bool a b).
Definition js_lt (a b : Q) : bool := negb (Qle_bool b a).

(** ** The engine *)

(** [new GameEngine()]. *)
Definition constructor : GameEngine :=
  mkEngine 0 1 60 60 false 1 [] 60 0 false false None.

Definition newWorld : World := mkWorld constructor [] 1%positive 0%nat.

(** [setScoreChangeCallback] and [setGameEndCallback]: the argument is a
    function ([true]) or [null] ([false]). *)
Definition setScoreChangeCallback (callback : bool) (e : GameEngine)
  : GameEngine :=
  mkEngine (score e) (level e) (timeLimit e) (timeLeft e) (isGameActive e)
    (basketPos e) (items e) (spawnRate e) (frameCount e)
    callback (onGameEnd e) (timerInterval e).

Definition setGameEndCallback (callback : bool) (e : GameEngine)
  : GameEngine :=
  mkEngine (score e) (level e) (timeLimit e) (timeLeft e) (isGameActive e)
    (basketPos e) (items e) (spawnRate e) (frameCount e)
    (onScoreChange e) callback (timerInterval e).

(** [config.timeLimit || 60]: an absent field and the number 0 are falsy. *)
Definition timeLimit_or_default (config : Config) : Z :=
  match config_timeLimit config with
  | Some t => if t =? 0 then 60 else t
  | None => 60
  end.

(** [stop()]. *)
Definition stop (w : World) : World * list Output :=
  let e := engine w in
  let e1 := set_isGameActive false e in
  let live := clearInterval (timerInterval e1) (intervals w) in
  (mkWorld e1 live (nextHandle w) (randomCalls w),
   if onGameEnd e1 then [GameEnd (score e1) (level e1)] else []).

(** The arrow function handed to [setInterval] in [start]. *)
Definition timerCallback (w : World) : World * list Output :=
  if isGameActive (engine w) then
    let e1 := set_timeLeft (timeLeft (engine w) - 1) (engine w) in
    let w1 := set_engine e1 w in
    if timeLeft e1 <=? 0 then stop w1 else (w1, [])
  else (w, []).

(** The browser runs the callback of interval [h], if [h] is still
    scheduled.  Every interval this program schedules carries
    [timerCallback]. *)
Definition intervalFires (h : positive) (w : World) : World * list Output :=
  if existsb (Pos.eqb h) (intervals w) then timerCallback w else (w, []).

(** [start(config = {})]. *)
Definition start (config : Config) (w : World) : World :=
  let e := engine w in
  let tl := timeLimit_or_default config in
  let live :=
    match timerInterval e with
    | Some h => clearInterval (Some h) (intervals w)
    | None => intervals w
    end in
  let h := nextHandle w in
  mkWorld
    (mkEngine 0 1 tl tl true 1 [] (spawnRate e) 0
       (onScoreChange e) (onGameEnd e) (Some h))
    (h :: live) (Pos.succ h) (randomCalls w).

(** [setBasketPose(poseLabel)]. *)
Definition setBasketPose (poseLabel : string) (e : GameEngine) : GameEngine :=
  if String.eqb poseLabel "왼쪽" then set_basketPos 0 e
  else if String.eqb poseLabel "정면" then set_basketPos 1 e
  else if String.eqb poseLabel "오른쪽" then set_basketPos 2 e
  else e.

(** [handleCollision(item)]: returns the item and the engine as the call
    leaves them, and the callback call it made. *)
Definition handleCollision (it : Item) (e : GameEngine)
  : Item * GameEngine * list Output :=
  let it1 := set_active false it in
  let e1 :=
    match type it1 with
    | apple => set_score (score e + 10) e
    | bomb => set_score (score e - 50) e
    end in
  let newLevel := 1 + score e1 / 300 in
  let e2 := if negb (newLevel =? level e1) then set_level newLevel e1 else e1 in
  (it1, e2,
   if onScoreChange e2 then [ScoreChange (score e2) (level e2)] else []).

(** The body of the [for (let item of this.items)] loop of [updateItems]. *)
Definition updateItem (canvasHeight : Q) (it : Item) (e : GameEngine)
  : Item * GameEngine * list Output :=
  if negb (active it) then (it, e, [])
  else
    let it1 := set_y (y it + speed it)%Q it in
    let basketY := (canvasHeight * 0.85)%Q in
    let '(it2, e2, out) :=
      if js_ge (y it1) (basketY - 20)%Q && js_le (y it1) (basketY + 20)%Q
      then
        if lane it1 =? basketPos e then handleCollision it1 e
        else (it1, e, [])
      else (it1, e, []) in
    let it3 :=
      if js_gt (y it2) canvasHeight then set_active false it2 else it2 in
    (it3, e2, out).

Fixpoint updateItems_loop (canvasHeight : Q) (l : list Item) (e : GameEngine)
  : list Item * GameEngine * list Output :=
  match l with
  | [] => ([], e, [])
  | it :: rest =>
      let '(it', e1, out1) := updateItem canvasHeight it e in
      let '(rest', e2, out2) := updateItems_loop canvasHeight rest e1 in
      (it' :: rest', e2, out1 ++ out2)
  end.

(** [updateItems(canvasHeight, canvasWidth)]. *)
Definition updateItems (canvasHeight canvasWidth : Q) (e : GameEngine)
  : GameEngine * list Output :=
  let '(l, e1, out) := updateItems_loop canvasHeight (items e) e in
  (set_items (filter active l) e1, out).

(** [this.lanes[i]] for an integer [i]; [undefined] off the array. *)
Definition lanes_at (i : Z) : option Q :=
  if i <? 0 then None else nth_error lanes (Z.to_nat i).

(** [draw(ctx, canvasWidth, canvasHeight)]: two lane separators, the basket
    and one glyph per item.  Where [lanes[basketPos]] is [undefined] the
    coordinate is not a number and the canvas ignores the call. *)
Definition draw (canvasWidth canvasHeight : Q) (e : GameEngine) : list Output :=
  let basketY := (canvasHeight * 0.85)%Q in
  [StrokeLine (canvasWidth * 0.33) 0 (canvasWidth * 0.33) canvasHeight;
   StrokeLine (canvasWidth * 0.66) 0 (canvasWidth * 0.66) canvasHeight]%Q
  ++ match lanes_at (basketPos e) with
     | Some l => [FillText basket_glyph (l * canvasWidth)%Q basketY]
     | None => []
     end
  ++ map (fun it =>
            match type it with
            | apple => FillText apple_glyph (x it) (y it)
            | bomb => FillText bomb_glyph (x it) (y it)
            end) (items e).

Section Engine.

(** The values [Math.random()] returns, in call order.  They lie in [0, 1). *)
Variable random : nat -> Q.

(** [spawnItem(canvasWidth)]: three calls of [Math.random], for the lane,
    the type and the speed.  A draw below 1 gives a lane index inside
    [lanes]; the 0 of the other branch stands for the not-a-number an index
    off the array would give. *)
Definition spawnItem (canvasWidth : Q) (w : World) : World :=
  let e := engine w in
  let n := randomCalls w in
  let laneIndex := Qfloor (random n * 3) in
  let x0 :=
    match lanes_at laneIndex with
    | Some l => (l * canvasWidth)%Q
    | None => 0%Q
    end in
  let bombChance := (0.2 + inject_Z (level e) * 0.05)%Q in
  let ty := if js_lt (random (S n)) bombChance then bomb else apple in
  let sp := (2 + inject_Z (level e) * 0.5 + random (S (S n)) * 1)%Q in
  mkWorld
    (set_items (items e ++ [mkItem x0 (-30) laneIndex ty sp true]) e)
    (intervals w) (nextHandle w) (S (S (S n))).

(** [updateAndDraw(ctx, canvasWidth, canvasHeight)]. *)
Definition updateAndDraw (canvasWidth canvasHeight : Q) (w : World)
  : World * list Output :=
  if negb (isGameActive (engine w)) then (w, [])
  else
    let w1 :=
      set_engine (set_frameCount (frameCount (engine w) + 1) (engine w)) w in
    let currentSpawnRate :=
      Z.max 20 (spawnRate (engine w1) - level (engine w1) * 5) in
    let w2 :=
      if Z.rem (frameCount (engine w1)) currentSpawnRate =? 0
      then spawnItem canvasWidth w1 else w1 in
    let '(e3, out) := updateItems canvasHeight canvasWidth (engine w2) in
    (set_engine e3 w2, out ++ draw canvasWidth canvasHeight e3).

(** ** Runs *)

(** What can happen to an engine: a call of one of its methods, or the
    browser firing an interval. *)
Inductive Event :=
| Start (config : Config)
| Stop
| UpdateAndDraw (canvasWidth canvasHeight : Q)
| SetBasketPose (poseLabel : string)
| SetScoreChangeCallback (callback : bool)
| SetGameEndCallback (callback : bool)
| IntervalFires (h : positive).

Definition step (ev : Event) (w : World) : World * list Output :=
  match ev with
  | Start config => (start config w, [])
  | Stop => stop w
  | UpdateAndDraw cw ch => updateAndDraw cw ch w
  | SetBasketPose l => (set_engine (setBasketPose l (engine w)) w, [])
  | SetScoreChangeCallback c =>
      (set_engine (setScoreChangeCallback c (engine w)) w, [])
  | SetGameEndCallback c =>
      (set_engine (setGameEndCallback c (engine w)) w, [])
  | IntervalFires h => intervalFires h w
  end.

Fixpoint run (evs : list Event) (w : World) : World * list Output :=
  match evs with
  | [] => (w, [])
  | ev :: rest =>
      let '(w1, out1) := step ev w in
      let '(w2, out2) := run rest w1 in
      (w2, out1 ++ out2)
  end.

End Engine.

(** ** The page (js/main.js)

    The three places where the page calls into the engine, each behind a
    test of [isGameActive]. *)
Module Page.

(** Step 3 of [drawPose]: the canvas is 400 by 400. *)
Definition drawPose (random : nat -> Q) (w : World) : World * list Output :=
  if isGameActive (engine w) then updateAndDraw random 400 400 w else (w, []).

(** Step 4 of [handlePrediction]: [className] is the stabilised label, or
    nothing while the recogniser has not settled. *)
Definition handlePrediction (className : option string) (w : World) : World :=
  match className with
  | Some l =>
      if isGameActive (engine w) && negb (String.eqb l EmptyString)
      then set_engine (setBasketPose l (engine w)) w
      else w
  | None => w
  end.

(** The stop button of the earlier page script. *)
Definition stop (w : World) : World * list Output :=
  if isGameActive (engine w) then stop w else (w, []).

End Page.

(** ** Vocabulary of the statements *)

(** The catch band around the basket line, as [updateItems] tests it. *)
Definition inCatchZone (canvasHeight v : Q) : bool :=
  js_ge v (canvasHeight * 0.85 - 20)%Q && js_le v (canvasHeight * 0.85 + 20)%Q.

(** Where an item stands once the tick has moved it. *)
Definition moved (it : Item) : Item := set_y (y it + speed it)%Q it.

(** The moved item is in the band, in the catcher's lane. *)
Definition caught (canvasHeight : Q) (catcher : Z) (it : Item) : bool :=
  inCatchZone canvasHeight (y (moved it)) && (lane it =? catcher).

(** The moved item is below the bottom edge. *)
Definition offScreen (canvasHeight : Q) (it : Item) : bool :=
  js_gt (y (moved it)) canvasHeight.

(** What one pass of the loop makes of an item, the engine left aside. *)
Definition advance (canvasHeight : Q) (catcher : Z) (it : Item) : Item :=
  if active it then
    if caught canvasHeight catcher it || offScreen canvasHeight it
    then set_active false (moved it) else moved it
  else it.

(** Score added by a catch. *)
Definition reward (t : ItemType) : Z :=
  match t with apple => 10 | bomb => -50 end.

Definition isScoreChange (o : Output) : bool :=
  match o with ScoreChange _ _ => true | _ => false end.

Definition isGameEnd (o : Output) : bool :=
  match o with GameEnd _ _ => true | _ => false end.

(** The callback calls among the outputs. *)
Definition notifications (out : list Output) : list Output :=
  filter (fun o => isScoreChange o || isGameEnd o) out.

Definition gameEnds (out : list Output) : nat :=
  List.length (filter isGameEnd out).

(** A pass of the loop writes [score] and [level] and no other field. *)
Definition rescored (s l : Z) (e : GameEngine) : GameEngine :=
  set_level l (set_score s e).

(** The frame number of the tick and the interval it is tested against. *)
Definition tickFrame (w : World) : Z := frameCount (engine w) + 1.

Definition currentSpawnRate (w : World) : Z :=
  Z.max 20 (spawnRate (engine w) - level (engine w) * 5).

Definition spawns (w : World) : bool :=
  Z.rem (tickFrame w) (currentSpawnRate w) =? 0.

(** The world as the update pass of a frame finds it. *)
Definition beforeUpdate (random : nat -> Q) (canvasWidth : Q) (w : World)
  : World :=
  let w1 := set_engine (set_frameCount (tickFrame w) (engine w)) w in
  if spawns w then spawnItem random canvasWidth w1 else w1.

(** The items a pass catches, in list order, and what they add up to. *)
Definition caughtItems (canvasHeight : Q) (catcher : Z) (l : list Item)
  : list Item :=
  filter (fun it => active it && caught canvasHeight catcher it) l.

Definition sumRewards (l : list Item) : Z :=
  fold_right (fun it acc => reward (type it) + acc) 0 l.

(** Events other than the two lifecycle calls. *)
Definition quiet (ev : Event) : bool :=
  match ev with Start _ | Stop => false | _ => true end.

(** The level rule in the words of the specification: the level derived
    from the score clamped at zero, never below the previous level. *)
Definition spec_level (previousLevel newScore : Z) : Z :=
  Z.max previousLevel (1 + Z.max newScore 0 / 300).

(** The spawn interval in the words of the specification. *)
Definition spec_spawnInterval (lvl : Z) : Z := Z.max 20 (60 - lvl * 5).

(** ** Scenarios *)

(** A random source whose draws are all 0.5, except the eighth, which is 0:
    every spawn lands in the centre lane with speed 3, the first two are
    apples and the third is a bomb. *)
Definition thirdIsBomb (n : nat) : Q := if Nat.eqb n 7 then 0 else 0.5.

Definition always_half (n : nat) : Q := 0.5.

(** A session on the 400 by 400 canvas of the page: both callbacks
    registered, [start], then [k] frames with the basket left in the
    centre. *)
Definition session (k : nat) : list Event :=
  SetScoreChangeCallback true :: SetGameEndCallback true
    :: Start (mkConfig (Some 60)) :: repeat (UpdateAndDraw 400 400) k.

(** An engine in play with both callbacks registered, the basket in the
    centre and the given items. *)
Definition inPlay (l : list Item) : GameEngine :=
  mkEngine 0 1 60 60 true 1 l 60 0 true true (Some 1%positive).

(** ** The page as a driver (js/main.js and the earlier script)

    [startGameMode] registers the two callbacks and starts the engine;
    [restartGame] is [startGameMode({ timeLimit: 60 })].  A page event is a
    call the page makes into the engine, or the browser firing an
    interval. *)
Module PageRun.

Definition startGameMode (config : Config) (w : World) : World :=
  start config
    (set_engine
       (setGameEndCallback true (setScoreChangeCallback true (engine w))) w).

Definition restartGame (w : World) : World :=
  startGameMode (mkConfig (Some 60)) w.

Inductive PageEvent :=
| StartGameMode (config : Config)
| RestartGame
| DrawPose
| HandlePrediction (className : option string)
| StopButton
| TimerFires (h : positive).

Definition step (random : nat -> Q) (ev : PageEvent) (w : World)
  : World * list Output :=
  match ev with
  | StartGameMode config => (startGameMode config w, [])
  | RestartGame => (restartGame w, [])
  | DrawPose => Page.drawPose random w
  | HandlePrediction className => (Page.handlePrediction className w, [])
  | StopButton => Page.stop w
  | TimerFires h => intervalFires h w
  end.

Fixpoint run (random : nat -> Q) (evs : list PageEvent) (w : World)
  : World * list Output :=
  match evs with
  | [] => (w, [])
  | ev :: rest =>
      let '(w1, out1) := step random ev w in
      let '(w2, out2) := run random rest w1 in
      (w2, out1 ++ out2)
  end.

(** Page events that do not begin a session. *)
Definition continues (ev : PageEvent) : bool :=
  match ev with StartGameMode _ | RestartGame => false | _ => true end.

End PageRun.

(** ** More vocabulary *)

(** The labels [setBasketPose] knows. *)
Definition recognised (l : string) : bool :=
  String.eqb l "왼쪽" || String.eqb l "정면" || String.eqb l "오른쪽".

(** Frames and interval firings. *)
Definition passive (ev : Event) : bool :=
  match ev with UpdateAndDraw _ _ | IntervalFires _ => true | _ => false end.

(** Events that neither begin nor end a session nor move its clock. *)
Definition steady (ev : Event) : bool :=
  match ev with Start _ | Stop | IntervalFires _ => false | _ => true end.

Definition isFrame (ev : Event) : bool :=
  match ev with UpdateAndDraw _ _ => true | _ => false end.

Definition scoreChanges (out : list Output) : nat :=
  List.length (filter isScoreChange out).

(** The calls of [onScoreChange] for a list of caught items, from a score
    [s] on: each carries the score so far and the level derived from it. *)
Fixpoint scoreCalls (s : Z) (l : list Item) : list Output :=
  match l with
  | [] => []
  | it :: rest =>
      ScoreChange (s + reward (type it)) (1 + (s + reward (type it)) / 300)
        :: scoreCalls (s + reward (type it)) rest
  end.

(** The interval the engine holds, as a list. *)
Definition heldInterval (e : GameEngine) : list positive :=
  match timerInterval e with Some h => [h] | None => [] end.

(** While the session is active exactly the interval the engine holds is
    scheduled; otherwise none is. *)
Definition clockOk (w : World) : Prop :=
  intervals w
  = (if isGameActive (engine w) then heldInterval (engine w) else [])
  /\ (if isGameActive (engine w)
      then exists h, timerInterval (engine w) = Some h else True).

(** The items of a reachable list: active, in one of the three lanes. *)
Definition itemOk (it : Item) : Prop :=
  active it = true /\ 0 <= lane it <= 2.

(** The glyph [draw] paints for an item. *)
Definition glyphOf (it : Item) : Output :=
  match type it with
  | apple => FillText apple_glyph (x it) (y it)
  | bomb => FillText bomb_glyph (x it) (y it)
  end.

(** The draws of a random source are those of [Math.random]. *)
Definition unitDraws (random : nat -> Q) : Prop :=
  forall n, (0 <= random n)%Q /\ (random n < 1)%Q.

(** ** The loop body *)

(** Reduce projections of updated records, and nothing else. *)
Ltac fields :=
  cbn [x y lane type speed active
       score level timeLimit timeLeft isGameActive basketPos items spawnRate
       frameCount onScoreChange onGameEnd timerInterval
       engine intervals nextHandle randomCalls
       set_active set_y set_score set_level set_timeLeft set_isGameActive
       set_basketPos set_items set_frameCount set_engine
       setScoreChangeCallback setGameEndCallback fst snd] in *.

Lemma handleCollision_eq it e :
  handleCollision it e
  = (set_active false it,
     set_level (1 + (score e + reward (type it)) / 300)
       (set_score (score e + reward (type it)) e),
     if onScoreChange e
     then [ScoreChange (score e + reward (type it))
                       (1 + (score e + reward (type it)) / 300)]
     else []).
Proof.
  unfold handleCollision. fields.
  assert (R : match type it with
              | apple => set_score (score e + 10) e
              | bomb => set_score (score e - 50) e
              end = set_score (score e + reward (type it)) e)
    by (destruct (type it); reflexivity).
  rewrite R. fields.
  destruct (Z.eqb_spec (1 + (score e + reward (type it)) / 300) (level e))
    as [E | E]; cbn [negb]; fields; [| reflexivity].
  rewrite E. destruct e; reflexivity.
Qed.

Lemma handleCollision_item it e :
  fst (fst (handleCollision it e)) = set_active false it.
Proof. reflexivity. Qed.

Lemma handleCollision_score it e :
  score (snd (fst (handleCollision it e))) = score e + reward (type it).
Proof. rewrite handleCollision_eq. reflexivity. Qed.

Lemma handleCollision_level it e :
  level (snd (fst (handleCollision it e)))
  = 1 + score (snd (fst (handleCollision it e))) / 300.
Proof. rewrite handleCollision_eq. reflexivity. Qed.

Lemma handleCollision_output it e :
  snd (handleCollision it e)
  = if onScoreChange e
    then [ScoreChange (score e + reward (type it))
                      (1 + (score e + reward (type it)) / 300)]
    else [].
Proof. rewrite handleCollision_eq. reflexivity. Qed.

Lemma updateItem_inactive h it e :
  active it = false -> updateItem h it e = (it, e, []).
Proof. intros A. unfold updateItem. rewrite A. reflexivity. Qed.

Lemma updateItem_caught h it e :
  active it = true -> caught h (basketPos e) it = true ->
  updateItem h it e
  = (set_active false (moved it),
     snd (fst (handleCollision (moved it) e)),
     snd (handleCollision (moved it) e)).
Proof.
  intros A C. unfold updateItem. rewrite A. cbn [negb].
  unfold caught, inCatchZone in C. apply andb_true_iff in C as [Z L].
  fold (moved it). rewrite Z. change (lane (moved it)) with (lane it).
  rewrite L.
  destruct (handleCollision (moved it) e) as [[i e'] o] eqn:H.
  pose proof (handleCollision_item (moved it) e) as Hi. rewrite H in Hi.
  cbn [fst snd] in *. subst i.
  destruct (js_gt _ _); reflexivity.
Qed.

Lemma updateItem_not_caught h it e :
  active it = true -> caught h (basketPos e) it = false ->
  updateItem h it e
  = (if offScreen h it then set_active false (moved it) else moved it, e, []).
Proof.
  intros A C. unfold updateItem. rewrite A. cbn [negb].
  unfold caught, inCatchZone in C. fold (moved it).
  change (lane (moved it)) with (lane it).
  destruct (js_ge _ _ && js_le _ _); cbn [andb] in C.
  - rewrite C. reflexivity.
  - reflexivity.
Qed.

Lemma updateItem_item h it e :
  fst (fst (updateItem h it e)) = advance h (basketPos e) it.
Proof.
  unfold advance. destruct (active it) eqn:A.
  - destruct (caught h (basketPos e) it) eqn:C.
    + rewrite updateItem_caught by assumption. reflexivity.
    + rewrite updateItem_not_caught by assumption. cbn [orb fst].
      destruct (offScreen h it); reflexivity.
  - rewrite updateItem_inactive by assumption. reflexivity.
Qed.

Lemma rescored_same e : rescored (score e) (level e) e = e.
Proof. destruct e; reflexivity. Qed.

Lemma updateItem_engine h it e :
  let e' := snd (fst (updateItem h it e)) in
  e' = rescored (score e') (level e') e.
Proof.
  cbv zeta. destruct (active it) eqn:A.
  - destruct (caught h (basketPos e) it) eqn:C.
    + rewrite updateItem_caught by assumption.
      rewrite handleCollision_eq. reflexivity.
    + rewrite updateItem_not_caught by assumption.
      cbn [fst snd]. symmetry. apply rescored_same.
  - rewrite updateItem_inactive by assumption.
    cbn [fst snd]. symmetry. apply rescored_same.
Qed.

Lemma updateItem_score h it e :
  score (snd (fst (updateItem h it e)))
  = score e
    + (if active it && caught h (basketPos e) it then reward (type it) else 0).
Proof.
  destruct (active it) eqn:A; cbn [andb].
  - destruct (caught h (basketPos e) it) eqn:C.
    + rewrite updateItem_caught by assumption.
      cbn [fst snd]. rewrite handleCollision_score. reflexivity.
    + rewrite updateItem_not_caught by assumption. cbn [fst snd]. lia.
  - rewrite updateItem_inactive by assumption. cbn [fst snd]. lia.
Qed.

Lemma updateItem_set_items h it a e :
  updateItem h it (set_items a e)
  = (fst (fst (updateItem h it e)),
     set_items a (snd (fst (updateItem h it e))),
     snd (updateItem h it e)).
Proof.
  destruct (active it) eqn:A.
  - destruct (caught h (basketPos e) it) eqn:C.
    + rewrite !updateItem_caught by assumption.
      rewrite !handleCollision_eq. reflexivity.
    + rewrite !updateItem_not_caught by assumption. reflexivity.
  - rewrite !updateItem_inactive by assumption. reflexivity.
Qed.

(** ** The loop *)

Lemma updateItems_loop_cons h it rest e :
  updateItems_loop h (it :: rest) e
  = (fst (fst (updateItem h it e))
       :: fst (fst (updateItems_loop h rest (snd (fst (updateItem h it e))))),
     snd (fst (updateItems_loop h rest (snd (fst (updateItem h it e))))),
     snd (updateItem h it e)
       ++ snd (updateItems_loop h rest (snd (fst (updateItem h it e))))).
Proof.
  cbn [updateItems_loop].
  destruct (updateItem h it e) as [[i e1] o1]. cbn [fst snd].
  destruct (updateItems_loop h rest e1) as [[r e2] o2]. reflexivity.
Qed.

Lemma updateItems_loop_engine h l : forall e,
  let e' := snd (fst (updateItems_loop h l e)) in
  e' = rescored (score e') (level e') e.
Proof.
  induction l as [| it rest IH]; intros e; cbv zeta.
  - cbn [updateItems_loop fst snd]. symmetry. apply rescored_same.
  - rewrite updateItems_loop_cons. cbn [fst snd].
    set (e1 := snd (fst (updateItem h it e))).
    specialize (IH e1). cbv zeta in IH. rewrite IH at 1.
    pose proof (updateItem_engine h it e) as H1. cbv zeta in H1.
    fold e1 in H1. rewrite H1 at 3. reflexivity.
Qed.

Lemma updateItems_loop_basketPos h l e :
  basketPos (snd (fst (updateItems_loop h l e))) = basketPos e.
Proof.
  pose proof (updateItems_loop_engine h l e) as H. cbv zeta in H.
  rewrite H. reflexivity.
Qed.

Lemma updateItem_basketPos h it e :
  basketPos (snd (fst (updateItem h it e))) = basketPos e.
Proof.
  pose proof (updateItem_engine h it e) as H. cbv zeta in H.
  rewrite H. reflexivity.
Qed.

Lemma updateItems_loop_items h l : forall e,
  fst (fst (updateItems_loop h l e)) = map (advance h (basketPos e)) l.
Proof.
  induction l as [| it rest IH]; intros e.
  - reflexivity.
  - rewrite updateItems_loop_cons. cbn [fst snd map].
    rewrite IH, updateItem_basketPos, updateItem_item. reflexivity.
Qed.

Lemma updateItems_loop_set_items h a l : forall e,
  updateItems_loop h l (set_items a e)
  = (fst (fst (updateItems_loop h l e)),
     set_items a (snd (fst (updateItems_loop h l e))),
     snd (updateItems_loop h l e)).
Proof.
  induction l as [| it rest IH]; intros e.
  - reflexivity.
  - rewrite !updateItems_loop_cons, updateItem_set_items. cbn [fst snd].
    rewrite IH. reflexivity.
Qed.

Lemma updateItems_loop_app h l1 : forall l2 e,
  updateItems_loop h (l1 ++ l2) e
  = (fst (fst (updateItems_loop h l1 e))
       ++ fst (fst (updateItems_loop h l2 (snd (fst (updateItems_loop h l1 e))))),
     snd (fst (updateItems_loop h l2 (snd (fst (updateItems_loop h l1 e))))),
     snd (updateItems_loop h l1 e)
       ++ snd (updateItems_loop h l2 (snd (fst (updateItems_loop h l1 e))))).
Proof.
  induction l1 as [| it rest IH]; intros l2 e.
  - cbn [app updateItems_loop fst snd].
    destruct (updateItems_loop h l2 e) as [[r e2] o2]. reflexivity.
  - rewrite <- app_comm_cons, !updateItems_loop_cons. cbn [fst snd].
    rewrite IH. cbn [fst snd]. rewrite app_assoc. reflexivity.
Qed.

Lemma updateItems_eq h cw e :
  updateItems h cw e
  = (set_items
       (filter active (fst (fst (updateItems_loop h (items e) e))))
       (snd (fst (updateItems_loop h (items e) e))),
     snd (updateItems_loop h (items e) e)).
Proof.
  unfold updateItems.
  destruct (updateItems_loop h (items e) e) as [[l e1] o]. reflexivity.
Qed.

Lemma updateItems_items h cw e :
  items (fst (updateItems h cw e))
  = filter active (map (advance h (basketPos e)) (items e)).
Proof.
  rewrite updateItems_eq. cbn [fst]. fields.
  rewrite updateItems_loop_items. reflexivity.
Qed.

Lemma updateItems_engine h cw e :
  let e' := fst (updateItems h cw e) in
  e' = set_items (items e') (rescored (score e') (level e') e).
Proof.
  cbv zeta. rewrite updateItems_eq. cbn [fst]. fields.
  pose proof (updateItems_loop_engine h (items e) e) as H. cbv zeta in H.
  rewrite H at 1. reflexivity.
Qed.

Lemma updateItem_level_follows h it e :
  level e = 1 + score e / 300 ->
  level (snd (fst (updateItem h it e)))
  = 1 + score (snd (fst (updateItem h it e))) / 300.
Proof.
  intros L. destruct (active it) eqn:A.
  - destruct (caught h (basketPos e) it) eqn:C.
    + rewrite updateItem_caught by assumption. cbn [fst snd].
      apply handleCollision_level.
    + rewrite updateItem_not_caught by assumption. exact L.
  - rewrite updateItem_inactive by assumption. exact L.
Qed.

Lemma updateItems_loop_level_follows h l : forall e,
  level e = 1 + score e / 300 ->
  level (snd (fst (updateItems_loop h l e)))
  = 1 + score (snd (fst (updateItems_loop h l e))) / 300.
Proof.
  induction l as [| it rest IH]; intros e L.
  - exact L.
  - rewrite updateItems_loop_cons. cbn [fst snd].
    apply IH, updateItem_level_follows, L.
Qed.

(** ** One frame *)

Section Frame.

Variable random : nat -> Q.

Lemma updateAndDraw_inactive cw ch w :
  isGameActive (engine w) = false -> updateAndDraw random cw ch w = (w, []).
Proof. intros A. unfold updateAndDraw. rewrite A. reflexivity. Qed.

Lemma updateAndDraw_active cw ch w :
  isGameActive (engine w) = true ->
  updateAndDraw random cw ch w
  = (set_engine (fst (updateItems ch cw (engine (beforeUpdate random cw w))))
       (beforeUpdate random cw w),
     snd (updateItems ch cw (engine (beforeUpdate random cw w)))
       ++ draw cw ch (fst (updateItems ch cw (engine (beforeUpdate random cw w))))).
Proof.
  intros A. unfold updateAndDraw. rewrite A. cbn [negb].
  unfold beforeUpdate, spawns, currentSpawnRate, tickFrame. fields.
  match goal with |- context [updateItems ch cw (engine ?w2)] =>
    destruct (updateItems ch cw (engine w2)) as [e3 out] end.
  reflexivity.
Qed.

Lemma beforeUpdate_engine cw w :
  engine (beforeUpdate random cw w)
  = set_items (items (engine (beforeUpdate random cw w)))
      (set_frameCount (tickFrame w) (engine w)).
Proof.
  unfold beforeUpdate. destruct (spawns w).
  - reflexivity.
  - fields. destruct (engine w); reflexivity.
Qed.

Lemma spawnItem_items cw w :
  exists it,
    items (engine (spawnItem random cw w)) = items (engine w) ++ [it]
    /\ y it = (-30)%Q /\ active it = true
    /\ lane it = Qfloor (random (randomCalls w) * 3).
Proof. eexists. unfold spawnItem. fields. repeat split; reflexivity. Qed.

Lemma beforeUpdate_no_spawn cw w :
  spawns w = false -> items (engine (beforeUpdate random cw w)) = items (engine w).
Proof. intros S. unfold beforeUpdate. rewrite S. reflexivity. Qed.

Lemma beforeUpdate_spawn cw w :
  spawns w = true ->
  exists it,
    items (engine (beforeUpdate random cw w)) = items (engine w) ++ [it]
    /\ y it = (-30)%Q /\ active it = true.
Proof.
  intros S. unfold beforeUpdate. rewrite S.
  destruct (spawnItem_items cw
              (set_engine (set_frameCount (tickFrame w) (engine w)) w))
    as (it & E & Y & A & _).
  exists it. auto.
Qed.

Lemma beforeUpdate_randomCalls cw w :
  randomCalls (beforeUpdate random cw w)
  = (randomCalls w + (if spawns w then 3 else 0))%nat.
Proof.
  unfold beforeUpdate. destruct (spawns w); unfold spawnItem; fields; lia.
Qed.

(** The engine after an active frame: the frame counter moved on, the score
    and the level as the catches left them, the items that survived. *)
Lemma updateAndDraw_engine cw ch w :
  isGameActive (engine w) = true ->
  let e' := engine (fst (updateAndDraw random cw ch w)) in
  e' = set_items (items e')
         (rescored (score e') (level e')
            (set_frameCount (tickFrame w) (engine w))).
Proof.
  intros A. cbv zeta. rewrite updateAndDraw_active by assumption.
  cbn [fst]. fields.
  pose proof (updateItems_engine ch cw (engine (beforeUpdate random cw w))) as H.
  cbv zeta in H.
  remember (fst (updateItems ch cw (engine (beforeUpdate random cw w)))) as e3.
  rewrite H at 1. rewrite beforeUpdate_engine. reflexivity.
Qed.

Lemma updateAndDraw_level_follows cw ch w :
  level (engine w) = 1 + score (engine w) / 300 ->
  level (engine (fst (updateAndDraw random cw ch w)))
  = 1 + score (engine (fst (updateAndDraw random cw ch w))) / 300.
Proof.
  intros L. destruct (isGameActive (engine w)) eqn:A.
  - rewrite updateAndDraw_active by assumption. cbn [fst]. fields.
    rewrite updateItems_eq. cbn [fst]. fields.
    apply updateItems_loop_level_follows.
    rewrite beforeUpdate_engine. exact L.
  - rewrite updateAndDraw_inactive by assumption. exact L.
Qed.

End Frame.

(** With draws in [0, 1) the lane of a spawned item is an index of
    [lanes], and its [x] is that lane's coordinate. *)
Lemma spawnItem_lane random cw w :
  (0 <= random (randomCalls w))%Q -> (random (randomCalls w) < 1)%Q ->
  exists it l,
    items (engine (spawnItem random cw w)) = items (engine w) ++ [it]
    /\ 0 <= lane it <= 2
    /\ lanes_at (lane it) = Some l
    /\ x it = (l * cw)%Q.
Proof.
  intros R0 R1.
  set (k := Qfloor (random (randomCalls w) * 3)).
  assert (K : 0 <= k <= 2).
  { subst k. split.
    - change 0 with (Qfloor 0). apply Qfloor_resp_le.
      apply Qmult_le_0_compat; [exact R0 | discriminate].
    - assert (H : (inject_Z (Qfloor (random (randomCalls w) * 3)) < inject_Z 3)%Q).
      { eapply Qle_lt_trans; [apply Qfloor_le |].
        setoid_replace (inject_Z 3) with (1 * 3)%Q by reflexivity.
        apply Qmult_lt_compat_r; [reflexivity | exact R1]. }
      rewrite <- Zlt_Qlt in H. lia. }
  assert (L : exists l, lanes_at k = Some l).
  { assert (C : k = 0 \/ k = 1 \/ k = 2) by lia.
    destruct C as [C | [C | C]]; rewrite C; eexists; reflexivity. }
  destruct L as [l L].
  eexists. exists l. unfold spawnItem. fields. fold k. rewrite L.
  split; [reflexivity |]. split; [exact K |]. split; [exact L | reflexivity].
Qed.

(** ** Runs of events *)

Section Runs.

Variable random : nat -> Q.

Lemma run_cons ev rest w :
  run random (ev :: rest) w
  = (fst (run random rest (fst (step random ev w))),
     snd (step random ev w) ++ snd (run random rest (fst (step random ev w)))).
Proof.
  cbn [run]. destruct (step random ev w) as [w1 o1]. cbn [fst snd].
  destruct (run random rest w1) as [w2 o2]. reflexivity.
Qed.

Lemma run_app evs1 : forall evs2 w,
  run random (evs1 ++ evs2) w
  = (fst (run random evs2 (fst (run random evs1 w))),
     snd (run random evs1 w) ++ snd (run random evs2 (fst (run random evs1 w)))).
Proof.
  induction evs1 as [| ev rest IH]; intros evs2 w.
  - cbn [app run fst snd]. destruct (run random evs2 w). reflexivity.
  - rewrite <- app_comm_cons, !run_cons, IH. cbn [fst snd].
    rewrite app_assoc. reflexivity.
Qed.

(** A property of the engine that every event preserves holds all along a
    run. *)
Lemma run_invariant (P : GameEngine -> Prop) :
  (forall ev w, P (engine w) -> P (engine (fst (step random ev w)))) ->
  forall evs w, P (engine w) -> P (engine (fst (run random evs w))).
Proof.
  intros Hstep evs. induction evs as [| ev rest IH]; intros w Hw.
  - exact Hw.
  - rewrite run_cons. cbn [fst]. apply IH, Hstep, Hw.
Qed.

Lemma timerCallback_engine w :
  exists t a,
    engine (fst (timerCallback w))
    = set_isGameActive a (set_timeLeft t (engine w)).
Proof.
  unfold timerCallback. destruct (isGameActive (engine w)) eqn:A.
  - destruct (_ <=? 0).
    + exists (timeLeft (engine w) - 1), false. reflexivity.
    + exists (timeLeft (engine w) - 1), true. fields.
      rewrite <- A. destruct (engine w); reflexivity.
  - exists (timeLeft (engine w)), false. cbn [fst].
    rewrite <- A. destruct (engine w); reflexivity.
Qed.

Lemma intervalFires_engine h w :
  exists t a,
    engine (fst (intervalFires h w))
    = set_isGameActive a (set_timeLeft t (engine w)).
Proof.
  unfold intervalFires. destruct (existsb _ _).
  - apply timerCallback_engine.
  - exists (timeLeft (engine w)), (isGameActive (engine w)).
    cbn [fst]. destruct (engine w); reflexivity.
Qed.

Lemma setBasketPose_cases l e :
  setBasketPose l e = e
  \/ setBasketPose l e = set_basketPos 0 e
  \/ setBasketPose l e = set_basketPos 1 e
  \/ setBasketPose l e = set_basketPos 2 e.
Proof.
  unfold setBasketPose.
  repeat match goal with |- context [if ?c then _ else _] => destruct c end;
    auto.
Qed.

(** The level is recomputed from the score at every catch, and both start
    from values that agree. *)
Lemma step_level_follows ev w :
  level (engine w) = 1 + score (engine w) / 300 ->
  level (engine (fst (step random ev w)))
  = 1 + score (engine (fst (step random ev w))) / 300.
Proof.
  intros L. destruct ev; cbn [step fst].
  - reflexivity.
  - exact L.
  - apply updateAndDraw_level_follows, L.
  - fields. destruct (setBasketPose_cases poseLabel (engine w))
      as [E | [E | [E | E]]]; rewrite E; exact L.
  - exact L.
  - exact L.
  - destruct (intervalFires_engine h w) as (t & a & E). rewrite E. exact L.
Qed.

Lemma step_basketPos ev w :
  0 <= basketPos (engine w) <= 2 ->
  0 <= basketPos (engine (fst (step random ev w))) <= 2.
Proof.
  intros B. destruct ev; cbn [step fst].
  - cbn. lia.
  - exact B.
  - destruct (isGameActive (engine w)) eqn:A.
    + pose proof (updateAndDraw_engine random canvasWidth canvasHeight w A) as H.
      cbv zeta in H. rewrite H. exact B.
    + rewrite updateAndDraw_inactive by assumption. exact B.
  - fields. destruct (setBasketPose_cases poseLabel (engine w))
      as [E | [E | [E | E]]]; rewrite E; fields; lia.
  - exact B.
  - exact B.
  - destruct (intervalFires_engine h w) as (t & a & E). rewrite E. exact B.
Qed.

Lemma step_spawnRate ev w :
  spawnRate (engine (fst (step random ev w))) = spawnRate (engine w).
Proof.
  destruct ev; cbn [step fst]; try reflexivity.
  - destruct (isGameActive (engine w)) eqn:A.
    + pose proof (updateAndDraw_engine random canvasWidth canvasHeight w A) as H.
      cbv zeta in H. rewrite H. reflexivity.
    + rewrite updateAndDraw_inactive by assumption. reflexivity.
  - fields. destruct (setBasketPose_cases poseLabel (engine w))
      as [E | [E | [E | E]]]; rewrite E; reflexivity.
  - destruct (intervalFires_engine h w) as (t & a & E). rewrite E. reflexivity.
Qed.

Lemma run_spawnRate evs w :
  spawnRate (engine (fst (run random evs w))) = spawnRate (engine w).
Proof.
  apply (run_invariant (fun e => spawnRate e = spawnRate (engine w))).
  - intros ev w0 H. rewrite step_spawnRate. exact H.
  - reflexivity.
Qed.

End Runs.

(** ** Score and level *)

Lemma updateItems_loop_score h l : forall e,
  score (snd (fst (updateItems_loop h l e)))
  = score e + sumRewards (caughtItems h (basketPos e) l).
Proof.
  induction l as [| it rest IH]; intros e.
  - cbn. lia.
  - rewrite updateItems_loop_cons. cbn [fst snd].
    rewrite IH, updateItem_score, updateItem_basketPos.
    unfold sumRewards, caughtItems. cbn [filter].
    destruct (active it && caught h (basketPos e) it); cbn [fold_right]; lia.
Qed.

(** C1, as the code has it.  In every state an engine can reach, the level
    is [1 + floor(score / 300)], the floor being taken of the score itself,
    negative or not: the level is at least 1 exactly when the score is not
    negative.  A catch sets the level to that value whatever it was before:
    a beneficial catch leaves it or raises it by one, a harmful catch leaves
    it or lowers it by one. *)
Theorem C1_level_follows_score (random : nat -> Q) (evs : list Event) :
  let e := engine (fst (run random evs newWorld)) in
  level e = 1 + score e / 300
  /\ (1 <=? level e) = (0 <=? score e)
  /\ forall it,
       let e' := snd (fst (handleCollision it e)) in
       level e' = 1 + score e' / 300
       /\ match type it with
          | apple => level e <= level e' <= level e + 1
          | bomb => level e - 1 <= level e' <= level e
          end.
Proof.
  cbv zeta.
  assert (L : level (engine (fst (run random evs newWorld)))
              = 1 + score (engine (fst (run random evs newWorld))) / 300).
  { apply (run_invariant random (fun e => level e = 1 + score e / 300)).
    - apply step_level_follows.
    - reflexivity. }
  set (e := engine (fst (run random evs newWorld))) in *.
  split; [exact L |]. split.
  - rewrite L.
    destruct (Z.leb_spec 0 (score e)) as [H | H];
      [apply Z.leb_le | apply Z.leb_gt].
    + pose proof (Z.div_pos (score e) 300 H ltac:(lia)). lia.
    + assert (score e / 300 < 0) by (apply Z.div_lt_upper_bound; lia). lia.
  - intros it. split; [apply handleCollision_level |].
    rewrite handleCollision_level, handleCollision_score, L.
    destruct (type it); cbn [reward].
    + pose proof (Z.div_le_mono (score e) (score e + 10) 300 ltac:(lia) ltac:(lia)).
      pose proof (Z.div_le_mono (score e + 10) (score e + 1 * 300) 300
                    ltac:(lia) ltac:(lia)) as U.
      rewrite Z.div_add in U by lia. lia.
    + pose proof (Z.div_le_mono (score e + -50) (score e) 300 ltac:(lia) ltac:(lia)).
      pose proof (Z.div_le_mono (score e + (-1) * 300) (score e + -50) 300
                    ltac:(lia) ltac:(lia)) as U.
      rewrite Z.div_add in U by lia. lia.
Qed.

(** C1 fails on the code.  On the page's canvas, two apples and then a bomb
    caught in the centre lane: before the 281st frame the score is 20 and
    the level 1; the frame takes the score to -30 and the level to 0, where
    the rule of the specification keeps it at 1. *)
Lemma C1_level_falls_to_zero :
  let w0 := fst (run thirdIsBomb (session 280) newWorld) in
  let w1 := fst (updateAndDraw thirdIsBomb 400 400 w0) in
  score (engine w0) = 20 /\ level (engine w0) = 1
  /\ score (engine w1) = -30 /\ level (engine w1) = 0
  /\ spec_level (level (engine w0)) (score (engine w1)) = 1
  /\ ~ level (engine w0) <= level (engine w1).
Proof.
  vm_compute. repeat split; try reflexivity. intros H. apply H. reflexivity.
Qed.

(** C8.  A catch of an apple adds exactly 10 to the score and a catch of a
    bomb adds exactly -50, whatever the score was; a pass over an item adds
    the reward when the item is caught and nothing otherwise, so an item
    that is missed changes no score; over a whole update the score moves by
    the sum of the rewards of the items caught; and the score can be
    negative. *)
Theorem C8_catch_rewards (h cw : Q) (it : Item) (e : GameEngine) :
  score (snd (fst (handleCollision it e)))
  = match type it with
    | apple => score e + 10
    | bomb => score e - 50
    end
  /\ score (snd (fst (updateItem h it e)))
     = score e
       + (if active it && caught h (basketPos e) it
          then match type it with apple => 10 | bomb => -50 end
          else 0)
  /\ score (fst (updateItems h cw e))
     = score e + sumRewards (caughtItems h (basketPos e) (items e))
  /\ score (snd (fst (handleCollision (mkItem 0 0 1 bomb 3 true) constructor)))
     = -50.
Proof.
  split; [| split; [| split]].
  - rewrite handleCollision_score. destruct (type it); cbn [reward]; lia.
  - rewrite updateItem_score. destruct (type it); reflexivity.
  - rewrite updateItems_eq. cbn [fst]. fields. apply updateItems_loop_score.
  - reflexivity.
Qed.

(** ** The catcher lane *)

(** C9.  In every state an engine can reach, [basketPos] is 0, 1 or 2 and
    [lanes[basketPos]] is an element of the array: the constructor and
    [start] set it to 1, and [setBasketPose] leaves it or assigns 0, 1
    or 2. *)
Theorem C9_basketPos_in_range (random : nat -> Q) (evs : list Event) :
  let e := engine (fst (run random evs newWorld)) in
  (basketPos e = 0 \/ basketPos e = 1 \/ basketPos e = 2)
  /\ (exists l, lanes_at (basketPos e) = Some l /\ In l lanes)
  /\ basketPos constructor = 1
  /\ (forall config w, basketPos (engine (start config w)) = 1)
  /\ (forall poseLabel e0,
        let p := basketPos (setBasketPose poseLabel e0) in
        p = basketPos e0 \/ p = 0 \/ p = 1 \/ p = 2).
Proof.
  cbv zeta.
  assert (B : 0 <= basketPos (engine (fst (run random evs newWorld))) <= 2).
  { apply (run_invariant random (fun e => 0 <= basketPos e <= 2)).
    - apply step_basketPos.
    - cbn. lia. }
  set (e := engine (fst (run random evs newWorld))) in *.
  assert (C : basketPos e = 0 \/ basketPos e = 1 \/ basketPos e = 2) by lia.
  split; [exact C |]. split; [| split; [| split]].
  - destruct C as [C | [C | C]]; rewrite C; eexists; (split; [reflexivity |]);
      cbn; auto.
  - reflexivity.
  - reflexivity.
  - intros l e0.
    destruct (setBasketPose_cases l e0) as [E | [E | [E | E]]]; rewrite E;
      cbn; auto.
Qed.

(** ** Starting *)

(** C7, as the code has it.  [start] checks nothing and rejects nothing:
    whatever the configuration, it starts an active session and schedules
    its interval.  A [timeLimit] that is absent or zero is replaced by the
    default 60; a negative one is taken as it is, and then the first firing
    of the interval ends the session. *)
Theorem C7_start_accepts_any_duration (config : Config) (w : World) :
  let w' := start config w in
  isGameActive (engine w') = true
  /\ timeLimit (engine w')
     = match config_timeLimit config with
       | None => 60
       | Some d => if d =? 0 then 60 else d
       end
  /\ timeLeft (engine w') = timeLimit (engine w')
  /\ timerInterval (engine w') = Some (nextHandle w)
  /\ In (nextHandle w) (intervals w')
  /\ match config_timeLimit config with
     | Some d =>
         if d <? 0
         then isGameActive
                (engine (fst (intervalFires (nextHandle w) w'))) = false
              /\ timeLimit (engine w') = d
         else True
     | None => True
     end.
Proof.
  cbv zeta. unfold start, timeLimit_or_default. fields.
  repeat split; try reflexivity; [left; reflexivity |].
  destruct (config_timeLimit config) as [d |]; [| exact I].
  destruct (Z.ltb_spec d 0) as [D | D]; [| exact I].
  destruct (Z.eqb_spec d 0) as [E | E]; [lia |].
  split; [| reflexivity].
  unfold intervalFires. fields. cbn [existsb]. rewrite Pos.eqb_refl.
  cbn [orb]. unfold timerCallback. fields.
  destruct (Z.leb_spec (d - 1) 0); [reflexivity | lia].
Qed.

Example start_without_timeLimit :
  timeLeft (engine (start (mkConfig None) newWorld)) = 60
  /\ timeLeft (engine (start (mkConfig (Some 0)) newWorld)) = 60
  /\ timeLeft (engine (start (mkConfig (Some (-5))) newWorld)) = -5
  /\ isGameActive (engine (start (mkConfig None) newWorld)) = true.
Proof. repeat split. Qed.

(** C7 fails on the code.  [start({ timeLimit: -5 })] on a new engine raises
    nothing: the session is active, five seconds below zero on the clock,
    with its interval scheduled. *)
Lemma C7_negative_duration_runs :
  let w' := start (mkConfig (Some (-5))) newWorld in
  isGameActive (engine w') = true
  /\ timeLeft (engine w') = -5
  /\ intervals w' = [1%positive].
Proof. repeat split. Qed.

(** ** Calls while the session is not active *)

(** C4, as the code has it.  While the session is not active a frame is a
    no-op: [updateAndDraw] returns at once, changing nothing and drawing
    nothing.  [setBasketPose] raises nothing and writes no field but
    [basketPos], but it does not look at [isGameActive]: it is the page
    that forwards a label, or a frame, only while the game is active. *)
Theorem C4_inactive_calls (random : nat -> Q) (cw ch : Q)
    (poseLabel : string) (w : World) :
  isGameActive (engine w) = false ->
  updateAndDraw random cw ch w = (w, [])
  /\ setBasketPose poseLabel (engine w)
     = set_basketPos (basketPos (setBasketPose poseLabel (engine w))) (engine w)
  /\ Page.drawPose random w = (w, [])
  /\ Page.handlePrediction (Some poseLabel) w = w.
Proof.
  intros A. split; [| split; [| split]].
  - apply updateAndDraw_inactive, A.
  - destruct (setBasketPose_cases poseLabel (engine w)) as [E | [E | [E | E]]];
      rewrite E; fields; try reflexivity.
    destruct (engine w); reflexivity.
  - unfold Page.drawPose. rewrite A. reflexivity.
  - unfold Page.handlePrediction. rewrite A. reflexivity.
Qed.

Lemma C4_inactive_calls_witness :
  updateAndDraw always_half 400 400 newWorld = (newWorld, [])
  /\ setBasketPose "오른쪽" constructor = set_basketPos 2 constructor
  /\ Page.drawPose always_half newWorld = (newWorld, [])
  /\ Page.handlePrediction (Some "오른쪽"%string) newWorld = newWorld.
Proof.
  apply (C4_inactive_calls always_half 400 400 "오른쪽" newWorld).
  reflexivity.
Defined.

(** C4 fails on the code.  On a new engine, which is not active,
    [setBasketPose('왼쪽')] moves the catcher from lane 1 to lane 0. *)
Lemma C4_setBasketPose_moves_while_inactive :
  isGameActive constructor = false
  /\ basketPos constructor = 1
  /\ basketPos (setBasketPose "왼쪽" constructor) = 0.
Proof. repeat split. Qed.

(** ** The end of a session *)

Lemma gameEnds_app o1 o2 :
  gameEnds (o1 ++ o2) = (gameEnds o1 + gameEnds o2)%nat.
Proof. unfold gameEnds. rewrite filter_app, length_app. reflexivity. Qed.

Lemma updateItem_gameEnds h it e : gameEnds (snd (updateItem h it e)) = 0%nat.
Proof.
  destruct (active it) eqn:A.
  - destruct (caught h (basketPos e) it) eqn:C.
    + rewrite updateItem_caught by assumption. cbn [snd].
      rewrite handleCollision_output. destruct (onScoreChange e); reflexivity.
    + rewrite updateItem_not_caught by assumption. reflexivity.
  - rewrite updateItem_inactive by assumption. reflexivity.
Qed.

Lemma updateItems_loop_gameEnds h l : forall e,
  gameEnds (snd (updateItems_loop h l e)) = 0%nat.
Proof.
  induction l as [| it rest IH]; intros e.
  - reflexivity.
  - rewrite updateItems_loop_cons. cbn [snd].
    rewrite gameEnds_app, updateItem_gameEnds, IH. reflexivity.
Qed.

Lemma draw_gameEnds cw ch e : gameEnds (draw cw ch e) = 0%nat.
Proof.
  unfold draw. rewrite !gameEnds_app.
  assert (M : forall l,
             gameEnds
               (map (fun it =>
                       match type it with
                       | apple => FillText apple_glyph (x it) (y it)
                       | bomb => FillText bomb_glyph (x it) (y it)
                       end) l) = 0%nat).
  { induction l as [| it l IH]; [reflexivity |].
    cbn [map]. change (?a :: ?l) with ([a] ++ l).
    rewrite gameEnds_app, IH. destruct (type it); reflexivity. }
  rewrite M. destruct (lanes_at (basketPos e)); reflexivity.
Qed.

Lemma updateAndDraw_gameEnds random cw ch w :
  gameEnds (snd (updateAndDraw random cw ch w)) = 0%nat.
Proof.
  destruct (isGameActive (engine w)) eqn:A.
  - rewrite updateAndDraw_active by assumption. cbn [snd].
    rewrite gameEnds_app, draw_gameEnds, updateItems_eq. cbn [snd].
    rewrite updateItems_loop_gameEnds. reflexivity.
  - rewrite updateAndDraw_inactive by assumption. reflexivity.
Qed.

Lemma updateAndDraw_isGameActive random cw ch w :
  isGameActive (engine (fst (updateAndDraw random cw ch w)))
  = isGameActive (engine w).
Proof.
  destruct (isGameActive (engine w)) eqn:A.
  - pose proof (updateAndDraw_engine random cw ch w A) as H. cbv zeta in H.
    rewrite H. exact A.
  - rewrite updateAndDraw_inactive by assumption. exact A.
Qed.

Lemma stop_gameEnds w :
  gameEnds (snd (stop w)) = if onGameEnd (engine w) then 1%nat else 0%nat.
Proof. unfold stop. fields. destruct (onGameEnd (engine w)); reflexivity. Qed.

Lemma clearInterval_idempotent h live :
  clearInterval h (clearInterval h live) = clearInterval h live.
Proof.
  destruct h as [k |]; [| reflexivity]. cbn [clearInterval].
  induction live as [| j live IH]; [reflexivity |].
  cbn [filter]. destruct (negb (Pos.eqb j k)) eqn:E.
  - cbn [filter]. rewrite E, IH. reflexivity.
  - exact IH.
Qed.

Lemma stop_idempotent w : fst (stop (fst (stop w))) = fst (stop w).
Proof.
  unfold stop. fields. rewrite clearInterval_idempotent. reflexivity.
Qed.

(** The interval callback ends a session at most once: when it does, the
    session is no longer active. *)
Lemma timerCallback_gameEnds w :
  gameEnds (snd (timerCallback w)) = 0%nat
  \/ (gameEnds (snd (timerCallback w)) = 1%nat
      /\ isGameActive (engine w) = true
      /\ isGameActive (engine (fst (timerCallback w))) = false).
Proof.
  unfold timerCallback. destruct (isGameActive (engine w)) eqn:A.
  - destruct (_ <=? 0).
    + rewrite stop_gameEnds. fields.
      destruct (onGameEnd (engine w)); [right | left]; auto.
    + left. reflexivity.
  - left. reflexivity.
Qed.

Lemma timerCallback_inactive w :
  isGameActive (engine w) = false -> timerCallback w = (w, []).
Proof. intros A. unfold timerCallback. rewrite A. reflexivity. Qed.

Section SessionEnd.

Variable random : nat -> Q.

Lemma step_quiet_inactive ev w :
  quiet ev = true -> isGameActive (engine w) = false ->
  gameEnds (snd (step random ev w)) = 0%nat
  /\ isGameActive (engine (fst (step random ev w))) = false.
Proof.
  intros Q A. destruct ev; try discriminate Q; cbn [step fst snd].
  - rewrite updateAndDraw_gameEnds, updateAndDraw_isGameActive. auto.
  - split; [reflexivity |]. fields.
    destruct (setBasketPose_cases poseLabel (engine w))
      as [E | [E | [E | E]]]; rewrite E; exact A.
  - auto.
  - auto.
  - unfold intervalFires. destruct (existsb _ _); [| auto].
    rewrite timerCallback_inactive by assumption. auto.
Qed.

Lemma run_quiet_inactive evs : forall w,
  forallb quiet evs = true -> isGameActive (engine w) = false ->
  gameEnds (snd (run random evs w)) = 0%nat.
Proof.
  induction evs as [| ev rest IH]; intros w Q A.
  - reflexivity.
  - cbn [forallb] in Q. apply andb_true_iff in Q as [Q1 Q2].
    destruct (step_quiet_inactive ev w Q1 A) as [G A'].
    rewrite run_cons. cbn [snd]. rewrite gameEnds_app, G, IH by assumption.
    reflexivity.
Qed.

Lemma step_quiet ev w :
  quiet ev = true ->
  gameEnds (snd (step random ev w)) = 0%nat
  \/ (gameEnds (snd (step random ev w)) = 1%nat
      /\ isGameActive (engine (fst (step random ev w))) = false).
Proof.
  intros Q. destruct ev; try discriminate Q; cbn [step fst snd]; auto.
  - left. apply updateAndDraw_gameEnds.
  - unfold intervalFires. destruct (existsb _ _); [| auto].
    destruct (timerCallback_gameEnds w) as [G | (G & _ & A)]; auto.
Qed.

Lemma run_quiet evs : forall w,
  forallb quiet evs = true ->
  (gameEnds (snd (run random evs w)) <= 1)%nat.
Proof.
  induction evs as [| ev rest IH]; intros w Q.
  - cbn. lia.
  - cbn [forallb] in Q. apply andb_true_iff in Q as [Q1 Q2].
    rewrite run_cons. cbn [snd]. rewrite gameEnds_app.
    destruct (step_quiet ev w Q1) as [G | [G A]]; rewrite G.
    + apply IH, Q2.
    + rewrite run_quiet_inactive by assumption. lia.
Qed.

Lemma repeat_quiet h n :
  forallb quiet (repeat (IntervalFires h) n) = true.
Proof. induction n as [| n IH]; [reflexivity | exact IH]. Qed.

(** The clock alone: an active session whose interval fires [n] times ends
    exactly once if the firings take the clock to zero, and not at all
    before. *)
Lemma clock_runs_out h n : forall w,
  isGameActive (engine w) = true ->
  existsb (Pos.eqb h) (intervals w) = true ->
  onGameEnd (engine w) = true ->
  gameEnds (snd (run random (repeat (IntervalFires h) n) w))
  = if (1 <=? Z.of_nat n) && (timeLeft (engine w) <=? Z.of_nat n)
    then 1%nat else 0%nat.
Proof.
  induction n as [| n IH]; intros w A L G.
  - reflexivity.
  - cbn [repeat]. rewrite run_cons. cbn [step fst snd].
    rewrite gameEnds_app. unfold intervalFires. rewrite L.
    unfold timerCallback. rewrite A. fields.
    destruct (Z.leb_spec (timeLeft (engine w) - 1) 0) as [T | T].
    + rewrite stop_gameEnds. fields. rewrite G.
      rewrite run_quiet_inactive; [| apply repeat_quiet | reflexivity].
      destruct (Z.leb_spec 1 (Z.of_nat (S n))); [| lia].
      destruct (Z.leb_spec (timeLeft (engine w)) (Z.of_nat (S n))); [| lia].
      reflexivity.
    + cbn [fst snd]. rewrite IH by (fields; assumption). fields.
      cbn [gameEnds filter List.length Nat.add].
      destruct (Z.leb_spec 1 (Z.of_nat n));
        destruct (Z.leb_spec (timeLeft (engine w) - 1) (Z.of_nat n));
        destruct (Z.leb_spec 1 (Z.of_nat (S n)));
        destruct (Z.leb_spec (timeLeft (engine w)) (Z.of_nat (S n)));
        cbn [andb]; try reflexivity; lia.
Qed.

(** C2, as the code has it.  Every call of [stop()] calls [onGameEnd] once
    when a callback is registered, with the score and the level of that
    moment, whether the session was active or not: on the engine state
    [stop()] is idempotent, on the notification it is not.  What happens
    once is the end by time-out: a session left to its clock is ended
    exactly once, at the firing that takes the clock to zero; over any
    events other than [start] and [stop] the clock ends the session at most
    once, and after a [stop] it fires no [onGameEnd] at all.  The stop
    button of the page calls [stop()] only while the session is active, so
    pressed after the end it fires nothing. *)
Theorem C2_game_end_per_stop (w : World) (evs : list Event)
    (config : Config) (n : nat) :
  forallb quiet evs = true ->
  snd (stop w)
  = (if onGameEnd (engine w)
     then [GameEnd (score (engine w)) (level (engine w))] else [])
  /\ snd (stop (fst (stop w))) = snd (stop w)
  /\ fst (stop (fst (stop w))) = fst (stop w)
  /\ (gameEnds (snd (run random evs w)) <= 1)%nat
  /\ gameEnds (snd (run random evs (fst (stop w)))) = 0%nat
  /\ snd (Page.stop (fst (stop w))) = []
  /\ (if onGameEnd (engine w)
      then gameEnds
             (snd (run random (repeat (IntervalFires (nextHandle w)) n)
                     (start config w)))
           = (if (1 <=? Z.of_nat n)
                 && (timeLimit_or_default config <=? Z.of_nat n)
              then 1%nat else 0%nat)
      else True).
Proof.
  intros Q. repeat split.
  - apply stop_idempotent.
  - apply run_quiet, Q.
  - apply run_quiet_inactive; [exact Q | reflexivity].
  - destruct (onGameEnd (engine w)) eqn:G; [| exact I].
    rewrite clock_runs_out; try reflexivity; try exact G.
    unfold start. fields. cbn [existsb]. rewrite Pos.eqb_refl. reflexivity.
Qed.

End SessionEnd.

Lemma C2_game_end_per_stop_witness :
  let w := fst (run always_half (session 3) newWorld) in
  let evs := [IntervalFires 1; UpdateAndDraw 400 400; IntervalFires 1] in
  snd (stop w) = [GameEnd 0 1]
  /\ snd (stop (fst (stop w))) = snd (stop w)
  /\ fst (stop (fst (stop w))) = fst (stop w)
  /\ (gameEnds (snd (run always_half evs w)) <= 1)%nat
  /\ gameEnds (snd (run always_half evs (fst (stop w)))) = 0%nat
  /\ snd (Page.stop (fst (stop w))) = []
  /\ gameEnds
       (snd (run always_half (repeat (IntervalFires 2) 7)
               (start (mkConfig (Some 5)) w)))
     = 1%nat.
Proof.
  apply (C2_game_end_per_stop always_half
           (fst (run always_half (session 3) newWorld))
           [IntervalFires 1; UpdateAndDraw 400 400; IntervalFires 1]
           (mkConfig (Some 5)) 7).
  reflexivity.
Defined.

(** C2 fails on the code.  With a callback registered: [start], [stop],
    [stop] calls [onGameEnd] twice; and so does a one-second session that
    the clock ends, followed by a [stop]. *)
Lemma C2_second_stop_fires_again :
  snd (run always_half
         [SetGameEndCallback true; Start (mkConfig (Some 5)); Stop; Stop]
         newWorld)
  = [GameEnd 0 1; GameEnd 0 1]
  /\ snd (run always_half
            [SetGameEndCallback true; Start (mkConfig (Some 1));
             IntervalFires 1; Stop]
            newWorld)
     = [GameEnd 0 1; GameEnd 0 1].
Proof. split; reflexivity. Qed.

(** ** Items leaving the field *)

Lemma advance_active h catcher it :
  active (advance h catcher it) = true ->
  active it = true
  /\ caught h catcher it = false
  /\ offScreen h it = false
  /\ advance h catcher it = moved it.
Proof.
  unfold advance. destruct (active it) eqn:A.
  - destruct (caught h catcher it || offScreen h it) eqn:C.
    + discriminate.
    + apply orb_false_iff in C as [C1 C2]. auto.
  - intros H. congruence.
Qed.

Lemma advance_gone h catcher it :
  active it = true ->
  caught h catcher it || offScreen h it = true ->
  active (advance h catcher it) = false.
Proof. intros A C. unfold advance. rewrite A, C. reflexivity. Qed.

Lemma offScreen_false h it :
  offScreen h it = false -> (y (moved it) <= h)%Q.
Proof.
  unfold offScreen, js_gt. intros H. apply negb_false_iff in H.
  apply Qle_bool_iff, H.
Qed.

Lemma offScreen_true h it :
  offScreen h it = true -> (h < y (moved it))%Q.
Proof.
  unfold offScreen, js_gt. intros H. apply negb_true_iff in H.
  apply Qnot_le_lt. intros L. apply Qle_bool_iff in L. congruence.
Qed.

(** C3, as the code has it.  An active item that the frame moves below the
    bottom edge without catching it is made inactive by its pass of the
    loop; the pass touches neither score nor level and calls no callback
    (the engine has no notification for a miss); and the item is gone from
    the list when [updateItems] returns: the update as a whole, state and
    calls, is the one the list without that item would have given. *)
Theorem C3_missed_item_leaves_silently (h cw : Q) (e : GameEngine)
    (l1 l2 : list Item) (it : Item) :
  active it = true ->
  offScreen h it = true ->
  caught h (basketPos e) it = false ->
  (h < y (moved it))%Q
  /\ updateItem h it e = (set_active false (moved it), e, [])
  /\ updateItems h cw (set_items (l1 ++ it :: l2) e)
     = updateItems h cw (set_items (l1 ++ l2) e)
  /\ ~ In (set_active false (moved it))
         (items (fst (updateItems h cw (set_items (l1 ++ it :: l2) e)))).
Proof.
  intros A O C.
  assert (U : forall e0, basketPos e0 = basketPos e ->
                updateItem h it e0 = (set_active false (moved it), e0, [])).
  { intros e0 B. rewrite updateItem_not_caught, O; [reflexivity | exact A |].
    rewrite B. exact C. }
  split; [apply offScreen_true, O |]. split; [apply U; reflexivity |]. split.
  - rewrite !updateItems_eq. fields.
    rewrite !updateItems_loop_set_items. cbn [fst snd].
    rewrite !updateItems_loop_app. cbn [fst snd].
    rewrite updateItems_loop_cons.
    rewrite (U (snd (fst (updateItems_loop h l1 e))))
      by apply updateItems_loop_basketPos.
    cbn [fst snd app]. rewrite !filter_app. cbn [filter]. fields.
    reflexivity.
  - rewrite updateItems_items. intros H. apply filter_In in H as [_ H].
    discriminate H.
Qed.

Lemma C3_missed_item_leaves_silently_witness :
  let e := inPlay [] in
  let it := mkItem 200 399 1 apple 3 true in
  let other := mkItem 200 100 1 bomb 3 true in
  (400 < y (moved it))%Q
  /\ updateItem 400 it e = (set_active false (moved it), e, [])
  /\ updateItems 400 400 (set_items ([other] ++ it :: []) e)
     = updateItems 400 400 (set_items ([other] ++ []) e)
  /\ ~ In (set_active false (moved it))
         (items (fst (updateItems 400 400 (set_items ([other] ++ it :: []) e)))).
Proof.
  apply (C3_missed_item_leaves_silently 400 400 (inPlay [])
           [mkItem 200 100 1 bomb 3 true] [] (mkItem 200 399 1 apple 3 true));
    reflexivity.
Defined.

(** C3 fails on the code.  One apple in the catcher's lane at height 399 of
    a field of height 400, both callbacks registered: the frame moves it to
    402, below the edge; the item is dropped, the score and the level stay
    0 and 1, and the frame calls no callback at all, so no miss is
    reported. *)
Lemma C3_miss_is_not_reported :
  let w := mkWorld (inPlay [mkItem 200 399 1 apple 3 true]) [1%positive] 2 0 in
  let r := updateAndDraw always_half 400 400 w in
  items (engine (fst r)) = []
  /\ score (engine (fst r)) = 0 /\ level (engine (fst r)) = 1
  /\ notifications (snd r) = []
  /\ List.length (notifications (snd r)) <> 1%nat.
Proof. vm_compute. repeat split; try reflexivity. discriminate. Qed.

(** ** Spawning *)

Lemma spec_spawnInterval_floor lvl : 20 <= spec_spawnInterval lvl.
Proof. unfold spec_spawnInterval. lia. Qed.

Lemma spec_spawnInterval_antitone l l' :
  spec_spawnInterval (Z.max l l') <= spec_spawnInterval l.
Proof. unfold spec_spawnInterval. lia. Qed.

Lemma updateAndDraw_randomCalls random cw ch w :
  isGameActive (engine w) = true ->
  randomCalls (fst (updateAndDraw random cw ch w))
  = (randomCalls w + (if spawns w then 3 else 0))%nat.
Proof.
  intros A. rewrite updateAndDraw_active by assumption. cbn [fst]. fields.
  apply beforeUpdate_randomCalls.
Qed.

Lemma updateAndDraw_items random cw ch w :
  isGameActive (engine w) = true ->
  items (engine (fst (updateAndDraw random cw ch w)))
  = filter active
      (map (advance ch (basketPos (engine w)))
         (items (engine (beforeUpdate random cw w)))).
Proof.
  intros A. rewrite updateAndDraw_active by assumption. cbn [fst]. fields.
  rewrite updateItems_items, beforeUpdate_engine. reflexivity.
Qed.

(** C5.  In an active session a frame first advances the frame counter and
    then spawns exactly when the new count is a multiple of
    [max(20, 60 - level * 5)]: on those frames [Math.random] is called three
    times and one new item, active and at height -30, joins the end of the
    list before the update pass; on every other frame [Math.random] is not
    called and the list goes to the update pass as it is.  The interval is
    never below 20 and never grows when the level rises. *)
Theorem C5_spawn_cadence (random : nat -> Q) (evs : list Event) (cw ch : Q) :
  isGameActive (engine (fst (run random evs newWorld))) = true ->
  let w := fst (run random evs newWorld) in
  let interval := spec_spawnInterval (level (engine w)) in
  let w' := fst (updateAndDraw random cw ch w) in
  20 <= interval
  /\ (forall l l', spec_spawnInterval (Z.max l l') <= spec_spawnInterval l)
  /\ frameCount (engine w') = frameCount (engine w) + 1
  /\ (if Z.rem (frameCount (engine w')) interval =? 0
      then randomCalls w' = (randomCalls w + 3)%nat
           /\ exists it,
                items (engine (beforeUpdate random cw w))
                = items (engine w) ++ [it]
                /\ y it = (-30)%Q /\ active it = true
      else randomCalls w' = randomCalls w
           /\ items (engine (beforeUpdate random cw w)) = items (engine w))
  /\ items (engine w')
     = filter active
         (map (advance ch (basketPos (engine w)))
            (items (engine (beforeUpdate random cw w)))).
Proof.
  intros A. cbv zeta.
  set (w := fst (run random evs newWorld)) in *.
  assert (R : spawnRate (engine w) = 60) by apply run_spawnRate.
  assert (F : frameCount (engine (fst (updateAndDraw random cw ch w)))
              = frameCount (engine w) + 1).
  { pose proof (updateAndDraw_engine random cw ch w A) as H. cbv zeta in H.
    rewrite H. reflexivity. }
  split; [apply spec_spawnInterval_floor |].
  split; [apply spec_spawnInterval_antitone |].
  split; [exact F |]. split.
  - rewrite F, updateAndDraw_randomCalls by assumption.
    assert (S : (Z.rem (frameCount (engine w) + 1)
                   (spec_spawnInterval (level (engine w))) =? 0) = spawns w).
    { unfold spawns, currentSpawnRate, tickFrame, spec_spawnInterval.
      rewrite R. reflexivity. }
    rewrite S. destruct (spawns w) eqn:E.
    + split; [reflexivity |]. apply beforeUpdate_spawn, E.
    + split; [lia |]. apply beforeUpdate_no_spawn, E.
  - apply updateAndDraw_items, A.
Qed.

Lemma C5_spawn_cadence_witness :
  let w := fst (run always_half (session 54) newWorld) in
  let interval := spec_spawnInterval (level (engine w)) in
  let w' := fst (updateAndDraw always_half 400 400 w) in
  20 <= interval
  /\ (forall l l', spec_spawnInterval (Z.max l l') <= spec_spawnInterval l)
  /\ frameCount (engine w') = frameCount (engine w) + 1
  /\ (if Z.rem (frameCount (engine w')) interval =? 0
      then randomCalls w' = (randomCalls w + 3)%nat
           /\ exists it,
                items (engine (beforeUpdate always_half 400 w))
                = items (engine w) ++ [it]
                /\ y it = (-30)%Q /\ active it = true
      else randomCalls w' = randomCalls w
           /\ items (engine (beforeUpdate always_half 400 w))
              = items (engine w))
  /\ items (engine w')
     = filter active
         (map (advance 400 (basketPos (engine w)))
            (items (engine (beforeUpdate always_half 400 w)))).
Proof.
  apply (C5_spawn_cadence always_half (session 54) 400 400).
  reflexivity.
Defined.

Example first_spawn_on_frame_55 :
  List.length (items (engine (fst (run always_half (session 54) newWorld))))
  = 0%nat
  /\ map (fun it => (Qred (y it), lane it, type it, Qred (speed it)))
       (items (engine (fst (run always_half (session 55) newWorld))))
     = [((-27)%Q, 1, apple, 3%Q)].
Proof. vm_compute. split; reflexivity. Qed.

(** ** The catch zone *)

Lemma inCatchZone_iff h v :
  inCatchZone h v = true <-> (h * 0.85 - 20 <= v /\ v <= h * 0.85 + 20)%Q.
Proof.
  unfold inCatchZone, js_ge, js_le. rewrite andb_true_iff, !Qle_bool_iff.
  tauto.
Qed.

Lemma updateItems_loop_output h l : forall e,
  onScoreChange e = true ->
  List.length (snd (updateItems_loop h l e))
  = List.length (caughtItems h (basketPos e) l).
Proof.
  induction l as [| it rest IH]; intros e S.
  - reflexivity.
  - rewrite updateItems_loop_cons. cbn [snd]. rewrite length_app.
    pose proof (updateItem_engine h it e) as E. cbv zeta in E.
    rewrite IH by (rewrite E; exact S). rewrite updateItem_basketPos.
    unfold caughtItems. cbn [filter].
    destruct (active it) eqn:A; cbn [andb].
    + destruct (caught h (basketPos e) it) eqn:C.
      * rewrite updateItem_caught by assumption. cbn [snd].
        rewrite handleCollision_output, S. reflexivity.
      * rewrite updateItem_not_caught by assumption. reflexivity.
    + rewrite updateItem_inactive by assumption. reflexivity.
Qed.

(** ** The list after a frame *)

(** C10.  After a frame of an active session every item in the list is
    active and not below the bottom edge of the canvas of that frame.  The
    list is what remains of the list the update pass was given, each item
    moved, once the caught and the fallen are taken out: an item that the
    frame catches or moves below the edge is no longer in the list. *)
Theorem C10_only_falling_items_remain (random : nat -> Q) (cw ch : Q)
    (w : World) :
  isGameActive (engine w) = true ->
  let given := items (engine (beforeUpdate random cw w)) in
  let catcher := basketPos (engine w) in
  let left := items (engine (fst (updateAndDraw random cw ch w))) in
  Forall (fun it => active it = true /\ (y it <= ch)%Q) left
  /\ left = filter active (map (advance ch catcher) given)
  /\ Forall (fun it =>
               if active it && (caught ch catcher it || offScreen ch it)
               then ~ In (advance ch catcher it) left
               else True) given.
Proof.
  intros A. cbv zeta. rewrite updateAndDraw_items by assumption.
  split; [| split].
  - apply Forall_forall. intros it H. apply filter_In in H as [H Act].
    split; [exact Act |].
    apply in_map_iff in H as (it0 & E & _). subst it.
    apply advance_active in Act as (_ & _ & O & M).
    rewrite M. apply offScreen_false, O.
  - reflexivity.
  - apply Forall_forall. intros it _.
    destruct (active it) eqn:Act; cbn [andb]; [| exact I].
    destruct (caught ch (basketPos (engine w)) it || offScreen ch it) eqn:G;
      [| exact I].
    intros H. apply filter_In in H as [_ H].
    rewrite advance_gone in H by assumption. discriminate H.
Qed.

Lemma C10_only_falling_items_remain_witness :
  let w := fst (run thirdIsBomb (session 170) newWorld) in
  let given := items (engine (beforeUpdate thirdIsBomb 400 w)) in
  let catcher := basketPos (engine w) in
  let left := items (engine (fst (updateAndDraw thirdIsBomb 400 400 w))) in
  Forall (fun it => active it = true /\ (y it <= 400)%Q) left
  /\ left = filter active (map (advance 400 catcher) given)
  /\ Forall (fun it =>
               if active it && (caught 400 catcher it || offScreen 400 it)
               then ~ In (advance 400 catcher it) left
               else True) given.
Proof.
  apply (C10_only_falling_items_remain thirdIsBomb 400 400
           (fst (run thirdIsBomb (session 170) newWorld))).
  vm_compute. reflexivity.
Defined.

Example frame_171_catches_the_first_apple :
  let w := fst (run thirdIsBomb (session 170) newWorld) in
  List.length (items (engine w)) = 3%nat
  /\ List.length (items (engine (fst (updateAndDraw thirdIsBomb 400 400 w))))
     = 2%nat
  /\ notifications (snd (updateAndDraw thirdIsBomb 400 400 w))
     = [ScoreChange 10 1].
Proof. vm_compute. repeat split. Qed.

(** ** The clock *)

Section Clock.

Variable random : nat -> Q.

(** A property of the world that every event preserves holds all along a
    run. *)
Lemma run_world_invariant (P : World -> Prop) :
  (forall ev w, P w -> P (fst (step random ev w))) ->
  forall evs w, P w -> P (fst (run random evs w)).
Proof.
  intros Hstep evs. induction evs as [| ev rest IH]; intros w Hw.
  - exact Hw.
  - rewrite run_cons. cbn [fst]. apply IH, Hstep, Hw.
Qed.

Lemma clearInterval_held e :
  clearInterval (timerInterval e) (heldInterval e) = [].
Proof.
  unfold heldInterval. destruct (timerInterval e) as [h |]; [| reflexivity].
  cbn. rewrite Pos.eqb_refl. reflexivity.
Qed.

Lemma stop_clockOk w : clockOk w -> clockOk (fst (stop w)).
Proof.
  intros [I H]. unfold clockOk, stop. fields. split; [| exact Logic.I].
  rewrite I. destruct (isGameActive (engine w)).
  - apply clearInterval_held.
  - destruct (timerInterval (engine w)); reflexivity.
Qed.

Lemma start_intervals config w :
  clockOk w -> intervals (start config w) = [nextHandle w].
Proof.
  intros [I H]. unfold start. fields. f_equal. rewrite I.
  destruct (isGameActive (engine w)).
  - destruct H as [h H]. rewrite H. unfold heldInterval. rewrite H.
    cbn. rewrite Pos.eqb_refl. reflexivity.
  - destruct (timerInterval (engine w)); reflexivity.
Qed.

Lemma updateAndDraw_intervals cw ch w :
  intervals (fst (updateAndDraw random cw ch w)) = intervals w.
Proof.
  destruct (isGameActive (engine w)) eqn:A.
  - rewrite updateAndDraw_active by assumption. cbn [fst]. fields.
    unfold beforeUpdate. destruct (spawns w); reflexivity.
  - rewrite updateAndDraw_inactive by assumption. reflexivity.
Qed.

Lemma updateAndDraw_timerInterval cw ch w :
  timerInterval (engine (fst (updateAndDraw random cw ch w)))
  = timerInterval (engine w).
Proof.
  destruct (isGameActive (engine w)) eqn:A.
  - pose proof (updateAndDraw_engine random cw ch w A) as H. cbv zeta in H.
    rewrite H. reflexivity.
  - rewrite updateAndDraw_inactive by assumption. reflexivity.
Qed.

Lemma step_clockOk ev w : clockOk w -> clockOk (fst (step random ev w)).
Proof.
  intros C. destruct ev; cbn [step fst].
  - split.
    + rewrite start_intervals by assumption. reflexivity.
    + cbn. eexists. reflexivity.
  - apply stop_clockOk, C.
  - destruct C as [I H]. unfold clockOk, heldInterval.
    rewrite updateAndDraw_intervals, updateAndDraw_isGameActive,
      updateAndDraw_timerInterval.
    split; assumption.
  - destruct C as [I H]. unfold clockOk, heldInterval in *. fields.
    destruct (setBasketPose_cases poseLabel (engine w))
      as [E | [E | [E | E]]]; rewrite E; split; assumption.
  - exact C.
  - exact C.
  - unfold intervalFires. destruct (existsb _ _); [| exact C].
    unfold timerCallback. destruct (isGameActive (engine w)) eqn:A;
      [| exact C].
    assert (C1 : clockOk
                   (set_engine
                      (set_timeLeft (timeLeft (engine w) - 1) (engine w)) w)).
    { destruct C as [I H]. unfold clockOk, heldInterval in *. fields.
      split; assumption. }
    destruct (_ <=? 0); [apply stop_clockOk, C1 | exact C1].
Qed.

(** X1.  In every state an engine can reach, the intervals still scheduled
    are exactly the one the engine holds while the session is active, and
    none while it is not: there is never more than one clock.  A [start]
    therefore leaves the new interval as the only one, and a firing of any
    other handle, such as the one of the session before, changes nothing. *)
Theorem X1_one_clock_per_session (evs : list Event) (config : Config)
    (h : positive) :
  let w := fst (run random evs newWorld) in
  intervals w
  = (if isGameActive (engine w) then heldInterval (engine w) else [])
  /\ (List.length (intervals w) <= 1)%nat
  /\ intervals (start config w) = [nextHandle w]
  /\ (if Pos.eqb h (nextHandle w) then True
      else intervalFires h (start config w) = (start config w, [])).
Proof.
  cbv zeta.
  assert (C : clockOk (fst (run random evs newWorld))).
  { apply run_world_invariant; [apply step_clockOk |].
    split; [reflexivity | exact I]. }
  set (w := fst (run random evs newWorld)) in *.
  split; [apply C |]. split; [| split].
  - destruct C as [I _]. rewrite I. unfold heldInterval.
    destruct (isGameActive (engine w)); [| cbn; lia].
    destruct (timerInterval (engine w)); cbn; lia.
  - apply start_intervals, C.
  - destruct (Pos.eqb h (nextHandle w)) eqn:E; [exact I |].
    unfold intervalFires. rewrite start_intervals by assumption.
    cbn [existsb]. rewrite E. reflexivity.
Qed.

Lemma intervalFires_inactive h w :
  isGameActive (engine w) = false -> intervalFires h w = (w, []).
Proof.
  intros A. unfold intervalFires.
  rewrite timerCallback_inactive by assumption.
  destruct (existsb _ _); reflexivity.
Qed.

Lemma firings_inactive h m : forall w,
  isGameActive (engine w) = false ->
  fst (run random (repeat (IntervalFires h) m) w) = w.
Proof.
  induction m as [| m IH]; intros w A; [reflexivity |].
  cbn [repeat]. rewrite run_cons. cbn [step fst].
  rewrite intervalFires_inactive by assumption. cbn [fst]. apply IH, A.
Qed.

(** The clock of an active session, fired [n] times with nothing else
    happening. *)
Lemma countdown h n : forall w,
  isGameActive (engine w) = true ->
  existsb (Pos.eqb h) (intervals w) = true ->
  let w' := fst (run random (repeat (IntervalFires h) n) w) in
  timeLeft (engine w')
  = timeLeft (engine w) - Z.min (Z.of_nat n) (Z.max 1 (timeLeft (engine w)))
  /\ isGameActive (engine w')
     = (Z.of_nat n <? Z.max 1 (timeLeft (engine w))).
Proof.
  induction n as [| n IH]; intros w A L; cbv zeta.
  - cbn [repeat run fst]. rewrite A. split; [lia |].
    symmetry. apply Z.ltb_lt. lia.
  - cbn [repeat]. rewrite run_cons. cbn [step fst].
    unfold intervalFires. rewrite L. unfold timerCallback. rewrite A.
    cbn [timeLeft set_timeLeft].
    destruct (Z.leb_spec (timeLeft (engine w) - 1) 0) as [T | T].
    + rewrite firings_inactive by reflexivity. unfold stop.
      cbn [fst engine set_engine set_isGameActive set_timeLeft timeLeft
           isGameActive].
      split; [lia |]. symmetry. apply Z.ltb_ge. lia.
    + cbn [fst].
      destruct (IH (set_engine
                      (set_timeLeft (timeLeft (engine w) - 1) (engine w)) w)
                  A L) as [TL AC].
      cbv zeta in TL, AC. rewrite TL, AC.
      cbn [engine set_engine set_timeLeft timeLeft].
      split; [lia |].
      destruct (Z.ltb_spec (Z.of_nat n) (Z.max 1 (timeLeft (engine w) - 1)));
        destruct (Z.ltb_spec (Z.of_nat (S n)) (Z.max 1 (timeLeft (engine w))));
        try reflexivity; lia.
Qed.

(** X2.  A session left to its clock, for a limit in the range where the
    code's numbers are exact integers (below 2^53 in absolute value): after
    [n] firings of its interval the time left is the limit less [n], down to
    zero, where the session stops being active and the clock stands still.
    A limit that is not positive gives way at the first firing, one below
    where it started. *)
Theorem X2_countdown (w : World) (config : Config) (n : nat) :
  Z.abs (timeLimit_or_default config) < 2 ^ 53 ->
  let limit := timeLimit_or_default config in
  let w' := fst (run random (repeat (IntervalFires (nextHandle w)) n)
                   (start config w)) in
  timeLeft (engine w') = limit - Z.min (Z.of_nat n) (Z.max 1 limit)
  /\ isGameActive (engine w') = (Z.of_nat n <? Z.max 1 limit)
  /\ Z.abs (timeLeft (engine w')) <= 2 ^ 53
  /\ (if 0 <? limit
      then timeLeft (engine w') = Z.max 0 (limit - Z.of_nat n)
      else True).
Proof.
  intros B. cbv zeta.
  destruct (countdown (nextHandle w) n (start config w)) as [T A].
  - reflexivity.
  - unfold start. fields. cbn [existsb]. rewrite Pos.eqb_refl. reflexivity.
  - cbv zeta in T, A. split; [exact T |]. split; [exact A |].
    assert (E : timeLeft (engine (start config w))
                = timeLimit_or_default config) by reflexivity.
    rewrite E in T. split.
    + rewrite T. lia.
    + destruct (Z.ltb_spec 0 (timeLimit_or_default config)); [| exact I].
      rewrite T. lia.
Qed.

(** X3.  In every state an engine can reach the time left is at most the
    time limit, and while the session is active it is positive unless the
    clock has not fired since [start]. *)
Theorem X3_timeLeft_bounds (evs : list Event) :
  let e := engine (fst (run random evs newWorld)) in
  timeLeft e <= timeLimit e
  /\ (if isGameActive e then 0 < timeLeft e \/ timeLeft e = timeLimit e
      else True).
Proof.
  cbv zeta.
  apply (run_invariant random
           (fun e => timeLeft e <= timeLimit e
                     /\ (if isGameActive e
                         then 0 < timeLeft e \/ timeLeft e = timeLimit e
                         else True))).
  - intros ev w [B P]. destruct ev; cbn [step fst].
    + cbn. split; [lia | right; reflexivity].
    + cbn. split; [exact B | exact I].
    + destruct (isGameActive (engine w)) eqn:A.
      * pose proof (updateAndDraw_engine random canvasWidth canvasHeight w A)
          as H. cbv zeta in H. rewrite H. unfold rescored. fields. rewrite A.
        split; assumption.
      * rewrite updateAndDraw_inactive by assumption. cbn [fst]. rewrite A.
        split; assumption.
    + fields. destruct (setBasketPose_cases poseLabel (engine w))
        as [E | [E | [E | E]]]; rewrite E; split; assumption.
    + split; assumption.
    + split; assumption.
    + unfold intervalFires. destruct (existsb _ _); [| split; assumption].
      unfold timerCallback. destruct (isGameActive (engine w)) eqn:A;
        [| cbn [fst]; rewrite A; split; assumption].
      fields.
      destruct (Z.leb_spec (timeLeft (engine w) - 1) 0) as [T | T].
      * cbn. split; [lia | exact I].
      * cbn [fst]. fields. rewrite A. split; [lia | left; lia].
  - cbn. split; [lia | exact I].
Qed.

(** X4.  Once a session is not active, frames and interval firings change
    nothing and call nothing: the final score, level and items stay as the
    end left them until the next [start]. *)
Theorem X4_frozen_after_end (evs : list Event) (w : World) :
  isGameActive (engine w) = false ->
  forallb passive evs = true ->
  run random evs w = (w, [])
  /\ run random evs (fst (stop w)) = (fst (stop w), []).
Proof.
  intros A P.
  assert (F : forall w0, isGameActive (engine w0) = false ->
                run random evs w0 = (w0, [])).
  { clear w A. induction evs as [| ev rest IH]; intros w0 A0.
    - reflexivity.
    - cbn [forallb] in P. apply andb_true_iff in P as [P1 P2].
      rewrite run_cons.
      assert (S : step random ev w0 = (w0, [])).
      { destruct ev; try discriminate P1; cbn [step].
        - apply updateAndDraw_inactive, A0.
        - apply intervalFires_inactive, A0. }
      rewrite S. cbn [fst snd app]. rewrite IH by assumption. reflexivity. }
  split; apply F; [exact A | reflexivity].
Qed.

End Clock.

Lemma X2_countdown_witness :
  let limit := timeLimit_or_default (mkConfig (Some 5)) in
  let w' := fst (run always_half (repeat (IntervalFires (nextHandle newWorld)) 7)
                   (start (mkConfig (Some 5)) newWorld)) in
  timeLeft (engine w') = limit - Z.min (Z.of_nat 7) (Z.max 1 limit)
  /\ isGameActive (engine w') = (Z.of_nat 7 <? Z.max 1 limit)
  /\ Z.abs (timeLeft (engine w')) <= 2 ^ 53
  /\ (if 0 <? limit
      then timeLeft (engine w') = Z.max 0 (limit - Z.of_nat 7)
      else True).
Proof.
  apply (X2_countdown always_half newWorld (mkConfig (Some 5)) 7).
  reflexivity.
Defined.

Example clock_stops_at_zero :
  let w' := fst (run always_half (repeat (IntervalFires 1) 7)
                   (start (mkConfig (Some 5)) newWorld)) in
  timeLeft (engine w') = 0 /\ isGameActive (engine w') = false.
Proof. split; reflexivity. Qed.

Lemma X4_frozen_after_end_witness :
  let w := fst (run always_half (session 60 ++ [Stop]) newWorld) in
  let evs := [UpdateAndDraw 400 400; IntervalFires 1; UpdateAndDraw 400 400] in
  run always_half evs w = (w, [])
  /\ run always_half evs (fst (stop w)) = (fst (stop w), []).
Proof.
  apply (X4_frozen_after_end always_half
           [UpdateAndDraw 400 400; IntervalFires 1; UpdateAndDraw 400 400]
           (fst (run always_half (session 60 ++ [Stop]) newWorld)));
    vm_compute; reflexivity.
Defined.

(** ** Lane selection *)

Lemma setBasketPose_recognised l e :
  setBasketPose l e
  = if recognised l
    then set_basketPos (basketPos (setBasketPose l e)) e
    else e.
Proof.
  unfold setBasketPose, recognised.
  destruct (String.eqb l "왼쪽"); [reflexivity |].
  destruct (String.eqb l "정면"); [reflexivity |].
  destruct (String.eqb l "오른쪽"); reflexivity.
Qed.

Lemma setBasketPose_lane l e e0 :
  recognised l = true ->
  basketPos (setBasketPose l e) = basketPos (setBasketPose l e0).
Proof.
  unfold setBasketPose, recognised.
  destruct (String.eqb l "왼쪽"); [reflexivity |].
  destruct (String.eqb l "정면"); [reflexivity |].
  destruct (String.eqb l "오른쪽"); [reflexivity | discriminate].
Qed.

(** X5.  Of two labels delivered one after the other the later one decides
    when it is one the engine knows, and else the earlier one stands: a
    label the engine does not know changes nothing, and a known label
    delivered twice does what it does once.  The three known labels go to
    three different lanes. *)
Theorem X5_last_known_label_wins (l l' : string) (e : GameEngine) :
  setBasketPose l (setBasketPose l' e)
  = (if recognised l then setBasketPose l e else setBasketPose l' e)
  /\ setBasketPose l (setBasketPose l e) = setBasketPose l e
  /\ (if recognised l then True else setBasketPose l e = e)
  /\ (if recognised l && recognised l'
      then (basketPos (setBasketPose l e) =? basketPos (setBasketPose l' e))
           = String.eqb l l'
      else True).
Proof.
  assert (K : forall a b e0,
            setBasketPose a (setBasketPose b e0)
            = if recognised a then setBasketPose a e0
              else setBasketPose b e0).
  { intros a b e0. rewrite (setBasketPose_recognised a (setBasketPose b e0)).
    destruct (recognised a) eqn:R; [| reflexivity].
    rewrite (setBasketPose_recognised a e0), R.
    rewrite (setBasketPose_lane a (setBasketPose b e0) e0 R).
    rewrite (setBasketPose_recognised b e0).
    destruct (recognised b); reflexivity. }
  split; [apply K |]. split; [| split].
  - rewrite K. destruct (recognised l); reflexivity.
  - rewrite (setBasketPose_recognised l e).
    destruct (recognised l); [exact I | reflexivity].
  - destruct (recognised l && recognised l') eqn:R; [| exact I].
    apply andb_true_iff in R as [R1 R2].
    unfold recognised, setBasketPose in *.
    destruct (String.eqb_spec l "왼쪽") as [E1 | E1];
      destruct (String.eqb_spec l "정면") as [E2 | E2];
      destruct (String.eqb_spec l "오른쪽") as [E3 | E3];
      try discriminate R1; subst;
      destruct (String.eqb_spec l' "왼쪽") as [F1 | F1];
      destruct (String.eqb_spec l' "정면") as [F2 | F2];
      destruct (String.eqb_spec l' "오른쪽") as [F3 | F3];
      try discriminate R2; subst; try discriminate;
      try reflexivity;
      cbn [basketPos set_basketPos Z.eqb];
      symmetry; (apply String.eqb_neq || apply String.eqb_eq);
      congruence.
Qed.

(** ** What is spawned *)

Lemma advance_lane h catcher it : lane (advance h catcher it) = lane it.
Proof.
  unfold advance. destruct (active it); [| reflexivity].
  destruct (_ || _); reflexivity.
Qed.

Lemma beforeUpdate_itemsOk random cw w :
  unitDraws random ->
  Forall itemOk (items (engine w)) ->
  Forall itemOk (items (engine (beforeUpdate random cw w))).
Proof.
  intros U F. unfold beforeUpdate. destruct (spawns w); [| exact F].
  set (w1 := set_engine (set_frameCount (tickFrame w) (engine w)) w).
  destruct (spawnItem_lane random cw w1) as (it & l & E & L & _ & _);
    try apply U.
  rewrite E. apply Forall_app. split; [exact F |].
  constructor; [| constructor]. split; [| exact L].
  destruct (spawnItem_items random cw w1) as (it' & E' & _ & A & _).
  rewrite E in E'. apply app_inj_tail in E' as [_ E']. subst it'. exact A.
Qed.

Lemma step_itemsOk random ev w :
  unitDraws random ->
  Forall itemOk (items (engine w)) ->
  Forall itemOk (items (engine (fst (step random ev w)))).
Proof.
  intros U F. destruct ev; cbn [step fst]; try exact F.
  - constructor.
  - destruct (isGameActive (engine w)) eqn:A.
    + rewrite updateAndDraw_items by assumption.
      apply Forall_forall. intros it H. apply filter_In in H as [H Act].
      apply in_map_iff in H as (it0 & E & H0). subst it.
      split; [exact Act |]. rewrite advance_lane.
      pose proof (beforeUpdate_itemsOk random canvasWidth w U F) as G.
      rewrite Forall_forall in G. apply G, H0.
    + rewrite updateAndDraw_inactive by assumption. exact F.
  - fields. destruct (setBasketPose_cases poseLabel (engine w))
      as [E | [E | [E | E]]]; rewrite E; exact F.
  - destruct (intervalFires_engine h w) as (t & a & E). rewrite E. exact F.
Qed.

(** X6.  With [Math.random] drawing from [0, 1), every item in the list of
    every state an engine can reach is active and lies in lane 0, 1
    or 2. *)
Theorem X6_items_active_in_lanes (random : nat -> Q) (evs : list Event) :
  unitDraws random ->
  Forall itemOk (items (engine (fst (run random evs newWorld)))).
Proof.
  intros U.
  apply (run_invariant random (fun e => Forall itemOk (items e))).
  - intros ev w. apply step_itemsOk, U.
  - constructor.
Qed.

Lemma X6_items_active_in_lanes_witness :
  Forall itemOk (items (engine (fst (run always_half (session 120) newWorld)))).
Proof.
  apply (X6_items_active_in_lanes always_half (session 120)).
  intros n. unfold always_half. split; lra.
Defined.

(** X7.  With [Math.random] drawing from [0, 1), [spawnItem] adds one item
    at the end of the list, active, at height -30, whose speed lies between
    [2 + level / 2] and [3 + level / 2], both ends allowed.  The odds of a bomb are not
    clamped: from level 16 on every spawn is a bomb, and at level -4 and
    below none is.  The speed is positive down to level -3; at level -6 and
    below it is negative, and the item moves up. *)
Theorem X7_spawn_extremes (random : nat -> Q) (cw : Q) (w : World) :
  unitDraws random ->
  exists it,
    items (engine (spawnItem random cw w)) = items (engine w) ++ [it]
    /\ y it = (-30)%Q /\ active it = true
    /\ (2 + inject_Z (level (engine w)) * 0.5 <= speed it)%Q
    /\ (speed it <= 3 + inject_Z (level (engine w)) * 0.5)%Q
    /\ (if 16 <=? level (engine w) then type it = bomb else True)
    /\ (if level (engine w) <=? -4 then type it = apple else True)
    /\ (if -3 <=? level (engine w) then (0 < speed it)%Q else True)
    /\ (if level (engine w) <=? -6 then (speed it < 0)%Q else True).
Proof.
  intros U. eexists. split; [unfold spawnItem; fields; reflexivity |].
  fields.
  pose proof (U (S (randomCalls w))) as [T0 T1].
  pose proof (U (S (S (randomCalls w)))) as [S0 S1].
  set (r1 := random (S (randomCalls w))) in *.
  set (r2 := random (S (S (randomCalls w)))) in *.
  set (lv := level (engine w)).
  split; [reflexivity |]. split; [reflexivity |].
  split; [lra |]. split; [lra |].
  split; [| split; [| split]].
  - destruct (Z.leb_spec 16 lv) as [H | H]; [| exact I].
    rewrite Zle_Qle in H. change (inject_Z 16) with 16%Q in H.
    unfold js_lt. destruct (Qle_bool _ r1) eqn:B; [| reflexivity].
    apply Qle_bool_iff in B. lra.
  - destruct (Z.leb_spec lv (-4)) as [H | H]; [| exact I].
    rewrite Zle_Qle in H. change (inject_Z (-4)) with (-4)%Q in H.
    unfold js_lt. destruct (Qle_bool _ r1) eqn:B; [reflexivity |].
    exfalso. assert (C : Qle_bool (0.2 + inject_Z lv * 0.05) r1 = true)
      by (apply Qle_bool_iff; lra).
    congruence.
  - destruct (Z.leb_spec (-3) lv) as [H | H]; [| exact I].
    rewrite Zle_Qle in H. change (inject_Z (-3)) with (-3)%Q in H. lra.
  - destruct (Z.leb_spec lv (-6)) as [H | H]; [| exact I].
    rewrite Zle_Qle in H. change (inject_Z (-6)) with (-6)%Q in H. lra.
Qed.

Lemma X7_spawn_extremes_witness :
  exists it,
    items (engine (spawnItem always_half 400 newWorld))
    = items (engine newWorld) ++ [it]
    /\ y it = (-30)%Q /\ active it = true
    /\ (2 + inject_Z (level (engine newWorld)) * 0.5 <= speed it)%Q
    /\ (speed it <= 3 + inject_Z (level (engine newWorld)) * 0.5)%Q
    /\ (if 16 <=? level (engine newWorld) then type it = bomb else True)
    /\ (if level (engine newWorld) <=? -4 then type it = apple else True)
    /\ (if -3 <=? level (engine newWorld) then (0 < speed it)%Q else True)
    /\ (if level (engine newWorld) <=? -6 then (speed it < 0)%Q else True).
Proof.
  apply (X7_spawn_extremes always_half 400 newWorld).
  intros n. unfold always_half. split; lra.
Defined.

(** ** What the callbacks are told *)

Lemma updateItem_onScoreChange h it e :
  onScoreChange (snd (fst (updateItem h it e))) = onScoreChange e.
Proof.
  pose proof (updateItem_engine h it e) as H. cbv zeta in H.
  rewrite H. reflexivity.
Qed.

Lemma updateItem_output h it e :
  snd (updateItem h it e)
  = if onScoreChange e && (active it && caught h (basketPos e) it)
    then [ScoreChange (score e + reward (type it))
            (1 + (score e + reward (type it)) / 300)]
    else [].
Proof.
  destruct (active it) eqn:A; cbn [andb].
  - destruct (caught h (basketPos e) it) eqn:C.
    + rewrite updateItem_caught by assumption. cbn [snd].
      rewrite handleCollision_output. destruct (onScoreChange e); reflexivity.
    + rewrite updateItem_not_caught by assumption.
      destruct (onScoreChange e); reflexivity.
  - rewrite updateItem_inactive by assumption.
    destruct (onScoreChange e); reflexivity.
Qed.

Lemma updateItems_loop_calls h l : forall e,
  snd (updateItems_loop h l e)
  = if onScoreChange e
    then scoreCalls (score e) (caughtItems h (basketPos e) l)
    else [].
Proof.
  induction l as [| it rest IH]; intros e.
  - destruct (onScoreChange e); reflexivity.
  - rewrite updateItems_loop_cons. cbn [snd].
    rewrite IH, updateItem_onScoreChange, updateItem_basketPos,
      updateItem_score, updateItem_output.
    unfold caughtItems. cbn [filter].
    destruct (onScoreChange e); cbn [andb]; [| reflexivity].
    destruct (active it && caught h (basketPos e) it); cbn [app scoreCalls].
    + reflexivity.
    + rewrite Z.add_0_r. reflexivity.
Qed.

Lemma updateItems_loop_level h l : forall e,
  level (snd (fst (updateItems_loop h l e)))
  = match caughtItems h (basketPos e) l with
    | [] => level e
    | _ :: _ => 1 + score (snd (fst (updateItems_loop h l e))) / 300
    end.
Proof.
  induction l as [| it rest IH]; intros e.
  - reflexivity.
  - rewrite updateItems_loop_cons. cbn [fst snd].
    unfold caughtItems. cbn [filter].
    destruct (active it) eqn:A; cbn [andb].
    + destruct (caught h (basketPos e) it) eqn:C.
      * apply updateItems_loop_level_follows.
        rewrite updateItem_caught by assumption. cbn [fst snd].
        apply handleCollision_level.
      * rewrite IH, updateItem_basketPos.
        rewrite updateItem_not_caught by assumption. reflexivity.
    + rewrite IH, updateItem_basketPos.
      rewrite updateItem_inactive by assumption. reflexivity.
Qed.

Lemma scoreCalls_last s l d : forall it,
  last (scoreCalls s (it :: l)) d
  = ScoreChange (s + sumRewards (it :: l))
      (1 + (s + sumRewards (it :: l)) / 300).
Proof.
  revert s. induction l as [| it' rest IH]; intros s it.
  - cbn [scoreCalls last sumRewards fold_right]. rewrite Z.add_0_r.
    reflexivity.
  - change (scoreCalls s (it :: it' :: rest))
      with (ScoreChange (s + reward (type it))
              (1 + (s + reward (type it)) / 300)
              :: scoreCalls (s + reward (type it)) (it' :: rest)).
    change (last (?a :: scoreCalls ?t (it' :: rest)) d)
      with (last (scoreCalls t (it' :: rest)) d).
    rewrite IH. unfold sumRewards. cbn [fold_right].
    rewrite !Z.add_assoc. reflexivity.
Qed.

(** X8.  The calls of [onScoreChange] made by one update are, in list
    order, one for each item caught, each with the score as the catches so
    far have left it and the level derived from that score; nothing is
    called where no callback is registered.  When something was caught the
    last call carries the score and the level the engine ends the update
    with; when nothing was, score and level are as they were. *)
Theorem X8_score_calls (h cw : Q) (e : GameEngine) :
  let got := caughtItems h (basketPos e) (items e) in
  let e' := fst (updateItems h cw e) in
  let out := snd (updateItems h cw e) in
  out = (if onScoreChange e then scoreCalls (score e) got else [])
  /\ match got with
     | [] => score e' = score e /\ level e' = level e
     | _ :: _ =>
         level e' = 1 + score e' / 300
         /\ (if onScoreChange e
             then last out (GameEnd 0 0) = ScoreChange (score e') (level e')
             else True)
     end.
Proof.
  cbv zeta. rewrite updateItems_eq. cbn [fst snd]. fields.
  rewrite updateItems_loop_calls, updateItems_loop_level,
    updateItems_loop_score.
  split; [reflexivity |].
  destruct (caughtItems h (basketPos e) (items e)) as [| it rest].
  - cbn. split; [lia | reflexivity].
  - split; [reflexivity |].
    destruct (onScoreChange e); [| exact I]. apply scoreCalls_last.
Qed.

(** ** Levels and multiples of 300 *)

Lemma sumRewards_tens l : sumRewards l mod 10 = 0.
Proof.
  assert (K : exists k, sumRewards l = 10 * k).
  { induction l as [| it rest [k IH]]; [exists 0; reflexivity |].
    change (sumRewards (it :: rest))
      with (reward (type it) + sumRewards rest).
    rewrite IH. destruct (type it); cbn [reward];
      [exists (1 + k) | exists (k - 5)]; lia. }
  destruct K as [k K]. rewrite K. Z.div_mod_to_equations. lia.
Qed.

Lemma step_score_tens random ev w :
  score (engine w) mod 10 = 0 ->
  score (engine (fst (step random ev w))) mod 10 = 0.
Proof.
  intros T. destruct ev; cbn [step fst]; try exact T.
  - reflexivity.
  - destruct (isGameActive (engine w)) eqn:A.
    + rewrite updateAndDraw_active by assumption. cbn [fst]. fields.
      rewrite updateItems_eq. cbn [fst]. fields.
      rewrite updateItems_loop_score, beforeUpdate_engine. fields.
      pose proof (sumRewards_tens
                    (caughtItems canvasHeight (basketPos (engine w))
                       (items (engine (beforeUpdate random canvasWidth w))))).
      Z.div_mod_to_equations. lia.
    + rewrite updateAndDraw_inactive by assumption. exact T.
  - fields. destruct (setBasketPose_cases poseLabel (engine w))
      as [E | [E | [E | E]]]; rewrite E; exact T.
  - destruct (intervalFires_engine h w) as (t & a & E). rewrite E. exact T.
Qed.

(** X9.  In every state an engine can reach the score is a multiple of 10.
    So a catch of an apple raises the level exactly when it brings the score
    to a multiple of 300, and a catch of a bomb lowers the level exactly
    when the score stood less than 50 above a multiple of 300. *)
Theorem X9_level_changes_at_300 (random : nat -> Q) (evs : list Event)
    (it : Item) :
  let e := engine (fst (run random evs newWorld)) in
  let e' := snd (fst (handleCollision it e)) in
  score e mod 10 = 0
  /\ match type it with
     | apple => (level e <? level e') = (score e' mod 300 =? 0)
     | bomb => (level e' <? level e) = (score e mod 300 <? 50)
     end.
Proof.
  cbv zeta.
  assert (T : score (engine (fst (run random evs newWorld))) mod 10 = 0).
  { apply (run_invariant random (fun e => score e mod 10 = 0)).
    - apply step_score_tens.
    - reflexivity. }
  assert (L : level (engine (fst (run random evs newWorld)))
              = 1 + score (engine (fst (run random evs newWorld))) / 300).
  { apply (run_invariant random (fun e => level e = 1 + score e / 300)).
    - apply step_level_follows.
    - reflexivity. }
  set (e := engine (fst (run random evs newWorld))) in *.
  split; [exact T |].
  rewrite handleCollision_level, handleCollision_score, L.
  destruct (type it); cbn [reward].
  - destruct (Z.ltb_spec (1 + score e / 300) (1 + (score e + 10) / 300));
      destruct (Z.eqb_spec ((score e + 10) mod 300) 0);
      try reflexivity; Z.div_mod_to_equations; lia.
  - destruct (Z.ltb_spec (1 + (score e + -50) / 300) (1 + score e / 300));
      destruct (Z.ltb_spec (score e mod 300) 50);
      try reflexivity; Z.div_mod_to_equations; lia.
Qed.

(** ** Spawned, caught, still falling *)

Lemma scoreChanges_app o1 o2 :
  scoreChanges (o1 ++ o2) = (scoreChanges o1 + scoreChanges o2)%nat.
Proof. unfold scoreChanges. rewrite filter_app, length_app. reflexivity. Qed.

Lemma scoreCalls_count l : forall t,
  scoreChanges (scoreCalls t l) = List.length l.
Proof.
  induction l as [| it rest IH]; intros t; [reflexivity |].
  cbn [scoreCalls]. unfold scoreChanges in *. cbn [filter isScoreChange].
  cbn [List.length]. rewrite IH. reflexivity.
Qed.

Lemma draw_scoreChanges cw ch e : scoreChanges (draw cw ch e) = 0%nat.
Proof.
  unfold draw. rewrite !scoreChanges_app.
  assert (M : forall l,
             scoreChanges
               (map (fun it =>
                       match type it with
                       | apple => FillText apple_glyph (x it) (y it)
                       | bomb => FillText bomb_glyph (x it) (y it)
                       end) l) = 0%nat).
  { induction l as [| it l IH]; [reflexivity |].
    cbn [map]. change (?a :: ?l) with ([a] ++ l).
    rewrite scoreChanges_app, IH. destruct (type it); reflexivity. }
  rewrite M. destruct (lanes_at (basketPos e)); reflexivity.
Qed.

Lemma survivors_and_caught h c l :
  (List.length (filter active (map (advance h c) l))
   + List.length (caughtItems h c l) <= List.length l)%nat.
Proof.
  induction l as [| it rest IH]; [cbn; lia |].
  unfold caughtItems in *. cbn [map filter List.length].
  unfold advance at 1.
  destruct (active it) eqn:A; cbn [andb].
  - destruct (caught h c it); cbn [orb].
    + cbn [active set_active List.length]. lia.
    + destruct (offScreen h it); cbn [active set_active moved set_y];
        rewrite ?A; cbn [List.length]; lia.
  - rewrite A. lia.
Qed.

Lemma updateAndDraw_count random cw ch w :
  (3 * (List.length (items (engine (fst (updateAndDraw random cw ch w))))
        + scoreChanges (snd (updateAndDraw random cw ch w)))
   + randomCalls w
   <= 3 * List.length (items (engine w))
      + randomCalls (fst (updateAndDraw random cw ch w)))%nat.
Proof.
  destruct (isGameActive (engine w)) eqn:A.
  - rewrite updateAndDraw_items, updateAndDraw_randomCalls by assumption.
    rewrite updateAndDraw_active by assumption. cbn [snd].
    rewrite scoreChanges_app, draw_scoreChanges, updateItems_eq. cbn [snd].
    rewrite updateItems_loop_calls, beforeUpdate_engine. fields.
    pose proof (survivors_and_caught ch (basketPos (engine w))
                  (items (engine (beforeUpdate random cw w)))) as S.
    assert (C : (scoreChanges
                   (if onScoreChange (engine w)
                    then scoreCalls (score (engine w))
                           (caughtItems ch (basketPos (engine w))
                              (items (engine (beforeUpdate random cw w))))
                    else [])
                 <= List.length
                      (caughtItems ch (basketPos (engine w))
                         (items (engine (beforeUpdate random cw w)))))%nat).
    { destruct (onScoreChange (engine w)).
      - rewrite scoreCalls_count. lia.
      - cbn. lia. }
    destruct (spawns w) eqn:Sp.
    + destruct (beforeUpdate_spawn random cw w Sp) as (it & E & _).
      rewrite E in *. rewrite length_app in S. cbn [List.length] in S. lia.
    + rewrite (beforeUpdate_no_spawn random cw w Sp) in *. lia.
  - rewrite updateAndDraw_inactive by assumption. cbn. lia.
Qed.

Lemma step_count random ev w :
  (3 * (List.length (items (engine (fst (step random ev w))))
        + scoreChanges (snd (step random ev w)))
   + randomCalls w
   <= 3 * List.length (items (engine w))
      + randomCalls (fst (step random ev w)))%nat.
Proof.
  destruct ev; cbn [step fst snd].
  - cbn. lia.
  - unfold stop. fields. destruct (onGameEnd (engine w)); cbn; lia.
  - apply updateAndDraw_count.
  - fields. destruct (setBasketPose_cases poseLabel (engine w))
      as [E | [E | [E | E]]]; rewrite E; cbn; lia.
  - cbn. lia.
  - cbn. lia.
  - unfold intervalFires. destruct (existsb _ _); [| cbn; lia].
    unfold timerCallback. destruct (isGameActive (engine w)); [| cbn; lia].
    fields. destruct (_ <=? 0); [| cbn; lia].
    unfold stop. fields. destruct (onGameEnd (engine w)); cbn; lia.
Qed.

(** X10.  Over any run, the calls of [onScoreChange] and the items still in
    the list together never outnumber the items the run started with and
    the items spawned since (one for every three calls of [Math.random]):
    no item is scored twice, whatever the order of frames, lane changes,
    restarts and stops. *)
Theorem X10_catches_bounded_by_spawns (random : nat -> Q)
    (evs : list Event) (w : World) :
  let w' := fst (run random evs w) in
  let out := snd (run random evs w) in
  (3 * (List.length (items (engine w')) + scoreChanges out) + randomCalls w
   <= 3 * List.length (items (engine w)) + randomCalls w')%nat
  /\ (3 * (List.length (items (engine (fst (run random evs newWorld))))
           + scoreChanges (snd (run random evs newWorld)))
      <= randomCalls (fst (run random evs newWorld)))%nat.
Proof.
  cbv zeta.
  assert (G : forall w0,
            (3 * (List.length (items (engine (fst (run random evs w0))))
                  + scoreChanges (snd (run random evs w0)))
             + randomCalls w0
             <= 3 * List.length (items (engine w0))
                + randomCalls (fst (run random evs w0)))%nat).
  { clear w. induction evs as [| ev rest IH]; intros w0.
    - cbn. lia.
    - rewrite run_cons. cbn [fst snd]. rewrite scoreChanges_app.
      pose proof (step_count random ev w0).
      pose proof (IH (fst (step random ev w0))). lia. }
  split; [apply G |].
  pose proof (G newWorld) as H. cbn [newWorld engine items constructor
    randomCalls List.length] in H. lia.
Qed.

(** ** The page's sessions *)

Section PageSessions.

Variable random : nat -> Q.

Lemma page_run_cons ev rest w :
  PageRun.run random (ev :: rest) w
  = (fst (PageRun.run random rest (fst (PageRun.step random ev w))),
     snd (PageRun.step random ev w)
       ++ snd (PageRun.run random rest (fst (PageRun.step random ev w)))).
Proof.
  cbn [PageRun.run]. destruct (PageRun.step random ev w) as [w1 o1].
  cbn [fst snd]. destruct (PageRun.run random rest w1) as [w2 o2].
  reflexivity.
Qed.

Lemma page_step_inactive ev w :
  PageRun.continues ev = true -> isGameActive (engine w) = false ->
  PageRun.step random ev w = (w, []).
Proof.
  intros C A. destruct ev; try discriminate C; cbn [PageRun.step].
  - unfold Page.drawPose. rewrite A. reflexivity.
  - unfold Page.handlePrediction. rewrite A.
    destruct className; reflexivity.
  - unfold Page.stop. rewrite A. reflexivity.
  - apply intervalFires_inactive, A.
Qed.

Lemma page_run_inactive evs : forall w,
  forallb PageRun.continues evs = true -> isGameActive (engine w) = false ->
  PageRun.run random evs w = (w, []).
Proof.
  induction evs as [| ev rest IH]; intros w C A; [reflexivity |].
  cbn [forallb] in C. apply andb_true_iff in C as [C1 C2].
  rewrite page_run_cons, page_step_inactive by assumption.
  cbn [fst snd app]. rewrite IH by assumption. reflexivity.
Qed.

Lemma page_step_gameEnds ev w :
  PageRun.continues ev = true ->
  gameEnds (snd (PageRun.step random ev w)) = 0%nat
  \/ (gameEnds (snd (PageRun.step random ev w)) = 1%nat
      /\ isGameActive (engine (fst (PageRun.step random ev w))) = false).
Proof.
  intros C. destruct ev; try discriminate C; cbn [PageRun.step fst snd].
  - left. unfold Page.drawPose. destruct (isGameActive (engine w));
      [apply updateAndDraw_gameEnds | reflexivity].
  - auto.
  - unfold Page.stop. destruct (isGameActive (engine w)); [| auto].
    rewrite stop_gameEnds. destruct (onGameEnd (engine w)); auto.
  - unfold intervalFires. destruct (existsb _ _); [| auto].
    destruct (timerCallback_gameEnds w) as [G | (G & _ & A)]; auto.
Qed.

Lemma page_run_gameEnds evs : forall w,
  forallb PageRun.continues evs = true ->
  (gameEnds (snd (PageRun.run random evs w)) <= 1)%nat.
Proof.
  induction evs as [| ev rest IH]; intros w C; [cbn; lia |].
  cbn [forallb] in C. apply andb_true_iff in C as [C1 C2].
  rewrite page_run_cons. cbn [snd]. rewrite gameEnds_app.
  destruct (page_step_gameEnds ev w C1) as [G | [G A]]; rewrite G.
  - apply IH, C2.
  - rewrite page_run_inactive by assumption. cbn. lia.
Qed.

Lemma page_run_firings h n : forall w,
  PageRun.run random (repeat (PageRun.TimerFires h) n) w
  = run random (repeat (IntervalFires h) n) w.
Proof.
  induction n as [| n IH]; intros w; [reflexivity |].
  cbn [repeat]. rewrite page_run_cons, run_cons.
  cbn [PageRun.step step]. rewrite IH. reflexivity.
Qed.

(** X11.  Driven by the page, a session reports its end at most once: over
    any page events after [startGameMode] and before the next one (frames,
    labels, the stop button, interval firings) [onGameEnd] is called at most
    once, since the stop button looks at [isGameActive] first; once the
    session is over such events do nothing at all; and a session left to
    its clock reports its end exactly once, at the firing that takes the
    clock to zero. *)
Theorem X11_page_session_ends_once (evs : list PageRun.PageEvent)
    (config : Config) (w : World) (n : nat) :
  forallb PageRun.continues evs = true ->
  let w0 := PageRun.startGameMode config w in
  (gameEnds (snd (PageRun.run random evs w0)) <= 1)%nat
  /\ PageRun.run random evs (fst (stop w0)) = (fst (stop w0), [])
  /\ gameEnds
       (snd (PageRun.run random
               (repeat (PageRun.TimerFires (nextHandle w)) n) w0))
     = (if (1 <=? Z.of_nat n) && (timeLimit_or_default config <=? Z.of_nat n)
        then 1%nat else 0%nat).
Proof.
  intros C. cbv zeta. split; [apply page_run_gameEnds, C |]. split.
  - apply page_run_inactive; [exact C | reflexivity].
  - rewrite page_run_firings.
    rewrite (clock_runs_out random (nextHandle w) n); try reflexivity.
    unfold PageRun.startGameMode, start. fields. cbn [existsb].
    rewrite Pos.eqb_refl. reflexivity.
Qed.

End PageSessions.

Lemma X11_page_session_ends_once_witness :
  let evs := [PageRun.DrawPose; PageRun.TimerFires 1; PageRun.StopButton;
              PageRun.TimerFires 1; PageRun.StopButton] in
  let w0 := PageRun.startGameMode (mkConfig (Some 1)) newWorld in
  (gameEnds (snd (PageRun.run always_half evs w0)) <= 1)%nat
  /\ PageRun.run always_half evs (fst (stop w0)) = (fst (stop w0), [])
  /\ gameEnds
       (snd (PageRun.run always_half
               (repeat (PageRun.TimerFires (nextHandle newWorld)) 3) w0))
     = 1%nat.
Proof.
  apply (X11_page_session_ends_once always_half
           [PageRun.DrawPose; PageRun.TimerFires 1; PageRun.StopButton;
            PageRun.TimerFires 1; PageRun.StopButton]
           (mkConfig (Some 1)) newWorld 3).
  reflexivity.
Defined.

(** ** What a frame draws *)

Lemma draw_eq cw ch e l :
  lanes_at (basketPos e) = Some l ->
  draw cw ch e
  = [StrokeLine (cw * 0.33) 0 (cw * 0.33) ch;
     StrokeLine (cw * 0.66) 0 (cw * 0.66) ch;
     FillText basket_glyph (l * cw) (ch * 0.85)]%Q
    ++ map glyphOf (items e).
Proof. intros L. unfold draw. rewrite L. reflexivity. Qed.

(** X12.  Every frame of an active session of a reachable engine ends with
    the same drawing: the two lane separators, the basket once, at the
    coordinate of the catcher's lane on the basket line, and then one glyph
    for each item left in the list after the update, at the item's place
    and in list order.  An item caught or fallen in the frame is not drawn,
    and no glyph lies below the bottom edge. *)
Theorem X12_frame_drawing (random : nat -> Q) (evs : list Event) (cw ch : Q) :
  isGameActive (engine (fst (run random evs newWorld))) = true ->
  let w := fst (run random evs newWorld) in
  let w' := fst (updateAndDraw random cw ch w) in
  exists l,
    lanes_at (basketPos (engine w)) = Some l
    /\ snd (updateAndDraw random cw ch w)
       = snd (updateItems ch cw (engine (beforeUpdate random cw w)))
         ++ [StrokeLine (cw * 0.33) 0 (cw * 0.33) ch;
             StrokeLine (cw * 0.66) 0 (cw * 0.66) ch;
             FillText basket_glyph (l * cw) (ch * 0.85)]%Q
         ++ map glyphOf (items (engine w'))
    /\ Forall (fun it => active it = true /\ (y it <= ch)%Q)
         (items (engine w')).
Proof.
  intros A. cbv zeta.
  assert (B : 0 <= basketPos (engine (fst (run random evs newWorld))) <= 2).
  { apply (run_invariant random (fun e => 0 <= basketPos e <= 2)).
    - apply step_basketPos.
    - cbn. lia. }
  set (w := fst (run random evs newWorld)) in *.
  assert (L : exists l, lanes_at (basketPos (engine w)) = Some l).
  { assert (C : basketPos (engine w) = 0 \/ basketPos (engine w) = 1
                \/ basketPos (engine w) = 2) by lia.
    destruct C as [C | [C | C]]; rewrite C; eexists; reflexivity. }
  destruct L as [l L]. exists l. split; [exact L |]. split.
  - rewrite updateAndDraw_active by assumption. cbn [fst snd]. fields.
    f_equal. apply draw_eq.
    pose proof (updateItems_engine ch cw (engine (beforeUpdate random cw w)))
      as H. cbv zeta in H. rewrite H, beforeUpdate_engine. exact L.
  - rewrite updateAndDraw_items by assumption.
    apply Forall_forall. intros it H. apply filter_In in H as [H Act].
    split; [exact Act |].
    apply in_map_iff in H as (it0 & E & _). subst it.
    apply advance_active in Act as (_ & _ & O & M).
    rewrite M. apply offScreen_false, O.
Qed.

Lemma X12_frame_drawing_witness :
  let w := fst (run always_half (session 170) newWorld) in
  let w' := fst (updateAndDraw always_half 400 400 w) in
  exists l,
    lanes_at (basketPos (engine w)) = Some l
    /\ snd (updateAndDraw always_half 400 400 w)
       = snd (updateItems 400 400 (engine (beforeUpdate always_half 400 w)))
         ++ [StrokeLine (400 * 0.33) 0 (400 * 0.33) 400;
             StrokeLine (400 * 0.66) 0 (400 * 0.66) 400;
             FillText basket_glyph (l * 400) (400 * 0.85)]%Q
         ++ map glyphOf (items (engine w'))
    /\ Forall (fun it => active it = true /\ (y it <= 400)%Q)
         (items (engine w')).
Proof.
  apply (X12_frame_drawing always_half (session 170) 400 400).
  vm_compute. reflexivity.
Defined.

(** ** Frames and the clock *)

(** X13.  Frames, lane changes and callback registrations leave the clock
    alone and never start or end a session; of these only a frame of an
    active session moves the frame counter, by one.  So after [start] the
    counter is the number of frames since, whatever else came between. *)
Theorem X13_frames_counted (random : nat -> Q) (evs : list Event)
    (config : Config) (w : World) :
  forallb steady evs = true ->
  let w' := fst (run random evs w) in
  isGameActive (engine w') = isGameActive (engine w)
  /\ timeLeft (engine w') = timeLeft (engine w)
  /\ frameCount (engine w')
     = frameCount (engine w)
       + (if isGameActive (engine w)
          then Z.of_nat (List.length (filter isFrame evs)) else 0)
  /\ frameCount (engine (fst (run random evs (start config w))))
     = Z.of_nat (List.length (filter isFrame evs)).
Proof.
  intros S. cbv zeta.
  assert (G : forall w0,
            isGameActive (engine (fst (run random evs w0)))
            = isGameActive (engine w0)
            /\ timeLeft (engine (fst (run random evs w0)))
               = timeLeft (engine w0)
            /\ frameCount (engine (fst (run random evs w0)))
               = frameCount (engine w0)
                 + (if isGameActive (engine w0)
                    then Z.of_nat (List.length (filter isFrame evs))
                    else 0)).
  { clear w. induction evs as [| ev rest IH]; intros w0.
    - cbn [run fst filter List.length]. repeat split.
      destruct (isGameActive (engine w0)); cbn; lia.
    - cbn [forallb] in S. apply andb_true_iff in S as [S1 S2].
      rewrite run_cons. cbn [fst].
      destruct (IH S2 (fst (step random ev w0))) as (A & T & F).
      rewrite A, T, F. clear A T F IH.
      destruct ev; try discriminate S1; cbn [step fst filter isFrame].
      + destruct (isGameActive (engine w0)) eqn:Act.
        * pose proof (updateAndDraw_engine random canvasWidth canvasHeight
                        w0 Act) as H. cbv zeta in H. rewrite H.
          unfold rescored, tickFrame. fields. rewrite Act.
          repeat split; cbn [List.length]; lia.
        * rewrite updateAndDraw_inactive by assumption. cbn [fst].
          rewrite Act. repeat split; lia.
      + fields. destruct (setBasketPose_cases poseLabel (engine w0))
          as [E | [E | [E | E]]]; rewrite E; repeat split.
      + repeat split.
      + repeat split. }
  destruct (G w) as (A & T & F). repeat split; try assumption.
  destruct (G (start config w)) as (_ & _ & F'). rewrite F'. reflexivity.
Qed.

Lemma X13_frames_counted_witness :
  let evs := [UpdateAndDraw 400 400; SetBasketPose "왼쪽";
              UpdateAndDraw 400 400; SetScoreChangeCallback true] in
  let w' := fst (run always_half evs newWorld) in
  isGameActive (engine w') = isGameActive (engine newWorld)
  /\ timeLeft (engine w') = timeLeft (engine newWorld)
  /\ frameCount (engine w')
     = frameCount (engine newWorld)
       + (if isGameActive (engine newWorld)
          then Z.of_nat (List.length (filter isFrame evs)) else 0)
  /\ frameCount
       (engine (fst (run always_half evs (start (mkConfig None) newWorld))))
     = Z.of_nat (List.length (filter isFrame evs)).
Proof.
  apply (X13_frames_counted always_half
           [UpdateAndDraw 400 400; SetBasketPose "왼쪽";
            UpdateAndDraw 400 400; SetScoreChangeCallback true]
           (mkConfig None) newWorld).
  reflexivity.
Defined.

(** ** The catch zone, over the life of an item *)

Lemma run_count random evs : forall w,
  (3 * (List.length (items (engine (fst (run random evs w))))
        + scoreChanges (snd (run random evs w)))
   + randomCalls w
   <= 3 * List.length (items (engine w))
      + randomCalls (fst (run random evs w)))%nat.
Proof.
  induction evs as [| ev rest IH]; intros w.
  - cbn. lia.
  - rewrite run_cons. cbn [fst snd]. rewrite scoreChanges_app.
    pose proof (step_count random ev w).
    pose proof (IH (fst (step random ev w))). lia.
Qed.

Lemma advance_active_eq h catcher it :
  active it = true ->
  active (advance h catcher it)
  = negb (caught h catcher it || offScreen h it).
Proof.
  intros A. unfold advance. rewrite A.
  destruct (caught h catcher it || offScreen h it); [reflexivity | exact A].
Qed.

(** C6.  An active item is tested for a catch exactly when the frame has
    moved it into the band from [0.85 * canvasHeight - 20] to
    [0.85 * canvasHeight + 20], both ends included.  In the band and in the
    catcher's lane it is caught: it becomes inactive, the score and the
    level are updated and [onScoreChange], where registered, is called once.
    Otherwise nothing happens to it but the move, and it stays active unless
    it has left the field.  What [updateItems] leaves in the engine's list
    is the moved items that are still active, so a caught item is not there
    for the next frame; the calls of one update are one for each item it
    caught.  Hence over any run of the engine, whatever the catcher does,
    the calls made and the items still in the list together are no more
    than the items of the start and those spawned since, and over a
    stretch in which nothing is spawned each call takes one item off the
    list: an item is caught at most once in its life, and one that is never
    in the catcher's lane inside the band goes on falling, uncaught. *)
Theorem C6_catch_in_zone (random : nat -> Q) (h cw : Q) (it : Item)
    (e : GameEngine) (evs : list Event) (w : World) :
  active it = true ->
  (inCatchZone h (y it + speed it) = true
   <-> (h * 0.85 - 20 <= y it + speed it /\ y it + speed it <= h * 0.85 + 20)%Q)
  /\ updateItem h it e
     = (if inCatchZone h (y it + speed it) && (lane it =? basketPos e)
        then (set_active false (moved it),
              rescored (score e + reward (type it))
                (1 + (score e + reward (type it)) / 300) e,
              if onScoreChange e
              then [ScoreChange (score e + reward (type it))
                      (1 + (score e + reward (type it)) / 300)]
              else [])
        else (if offScreen h it then set_active false (moved it) else moved it,
              e, []))
  /\ items (fst (updateItems h cw e))
     = filter active (map (advance h (basketPos e)) (items e))
  /\ active (advance h (basketPos e) it)
     = negb (inCatchZone h (y it + speed it) && (lane it =? basketPos e)
             || offScreen h it)
  /\ snd (updateItems h cw e)
     = (if onScoreChange e
        then scoreCalls (score e) (caughtItems h (basketPos e) (items e))
        else [])
  /\ (if onScoreChange e
      then List.length (snd (updateItems h cw e))
           = List.length (caughtItems h (basketPos e) (items e))
      else True)
  /\ (3 * (List.length (items (engine (fst (run random evs w))))
           + scoreChanges (snd (run random evs w)))
      + randomCalls w
      <= 3 * List.length (items (engine w))
         + randomCalls (fst (run random evs w)))%nat
  /\ (if Nat.eqb (randomCalls (fst (run random evs w))) (randomCalls w)
      then (List.length (items (engine (fst (run random evs w))))
            + scoreChanges (snd (run random evs w))
            <= List.length (items (engine w)))%nat
      else True).
Proof.
  intros A. split; [apply inCatchZone_iff |].
  split; [| split; [| split; [| split; [| split; [| split]]]]];
    [| | | | | | destruct (Nat.eqb_spec (randomCalls (fst (run random evs w)))
                            (randomCalls w)) as [E | E]; [| exact I];
                 pose proof (run_count random evs w); lia].
  - change (inCatchZone h (y it + speed it) && (lane it =? basketPos e))
      with (caught h (basketPos e) it).
    destruct (caught h (basketPos e) it) eqn:C.
    + rewrite updateItem_caught by assumption.
      rewrite handleCollision_eq. reflexivity.
    + apply updateItem_not_caught; assumption.
  - apply updateItems_items.
  - apply advance_active_eq, A.
  - rewrite updateItems_eq. cbn [snd]. apply updateItems_loop_calls.
  - destruct (onScoreChange e) eqn:S; [| exact I].
    rewrite updateItems_eq. cbn [snd]. apply updateItems_loop_output, S.
  - apply run_count.
Qed.

(** On the 400 by 400 canvas, the catcher in the centre: an apple of the
    centre lane at height 315 with speed 5 is moved to 320, the upper end
    of the band, and caught; and an engine in play with one such apple at
    height 100, run for 54 frames. *)
Lemma C6_catch_in_zone_witness :
  let it := mkItem 200 315 1 apple 5 true in
  let e := inPlay [it] in
  let w := mkWorld (inPlay [mkItem 200 100 1 apple 5 true]) [1%positive] 2 0 in
  let evs := repeat (UpdateAndDraw 400 400) 54 in
  (inCatchZone 400 (y it + speed it) = true
   <-> (400 * 0.85 - 20 <= y it + speed it
        /\ y it + speed it <= 400 * 0.85 + 20)%Q)
  /\ updateItem 400 it e
     = (set_active false (moved it), rescored 10 1 e, [ScoreChange 10 1])
  /\ items (fst (updateItems 400 400 e))
     = filter active (map (advance 400 (basketPos e)) (items e))
  /\ active (advance 400 (basketPos e) it) = false
  /\ snd (updateItems 400 400 e) = [ScoreChange 10 1]
  /\ List.length (snd (updateItems 400 400 e))
     = List.length (caughtItems 400 (basketPos e) (items e))
  /\ (3 * (List.length (items (engine (fst (run always_half evs w))))
           + scoreChanges (snd (run always_half evs w)))
      + randomCalls w
      <= 3 * List.length (items (engine w))
         + randomCalls (fst (run always_half evs w)))%nat
  /\ (List.length (items (engine (fst (run always_half evs w))))
      + scoreChanges (snd (run always_half evs w))
      <= List.length (items (engine w)))%nat.
Proof.
  apply (C6_catch_in_zone always_half 400 400 (mkItem 200 315 1 apple 5 true)
           (inPlay [mkItem 200 315 1 apple 5 true])
           (repeat (UpdateAndDraw 400 400) 54)
           (mkWorld (inPlay [mkItem 200 100 1 apple 5 true])
              [1%positive] 2 0)).
  reflexivity.
Defined.

(** One apple in play, the catcher in its lane throughout: it is caught on
    the frame that brings it to 320 and on no frame after.  With the catcher
    to the left while the apple crosses the band, and back in the centre
    once it is past, the apple goes on falling uncaught; it leaves the list
    on the frame that takes it below 400, with no call made. *)
Example caught_once_in_its_life :
  let apple_at_100 := mkItem 200 100 1 apple 5 true in
  let w := mkWorld (inPlay [apple_at_100]) [1%positive] 2 0 in
  let frames := fun k => repeat (UpdateAndDraw 400 400) k in
  let heights := fun r : World * list Output =>
    map (fun it => Qred (y it)) (items (engine (fst r))) in
  notifications (snd (run always_half (frames 43%nat) w)) = []
  /\ notifications (snd (run always_half (frames 44%nat) w))
     = [ScoreChange 10 1]
  /\ items (engine (fst (run always_half (frames 44%nat) w))) = []
  /\ notifications (snd (run always_half (frames 54%nat) w))
     = [ScoreChange 10 1]
  /\ notifications
       (snd (run always_half
               (SetBasketPose "왼쪽" :: frames 52%nat
                  ++ SetBasketPose "정면" :: frames 2%nat) w))
     = []
  /\ heights (run always_half
                (SetBasketPose "왼쪽" :: frames 52%nat
                   ++ SetBasketPose "정면" :: frames 2%nat) w)
     = [370%Q]
  /\ heights (run always_half (SetBasketPose "왼쪽" :: frames 60%nat) w)
     = [400%Q; (-12)%Q]
  /\ heights (run always_half (SetBasketPose "왼쪽" :: frames 61%nat) w)
     = [(-9)%Q]
  /\ notifications
       (snd (run always_half (SetBasketPose "왼쪽" :: frames 61%nat) w))
     = [].
Proof. vm_compute. repeat split. Qed.
